(** * claude-web-code-review: chunking engine and finding aggregation

  A shallow embedding of the two pieces of the repository that carry
  logic: [FileChunker] (the chunker script: [estimateTokens],
  [getOverlapLines], [createChunks]) and [CodeReviewer] (src/review.js:
  [analyzeCode], [calculateMetrics], [combineReviews] and the chunked
  review loop).

  Conventions.
  - A JavaScript string is a Rocq [string]; one [ascii] stands for one
    code unit, so the development covers texts whose code units are
    below 256.  [String.length] is [.length].
  - JavaScript numbers that hold counts are [Z]; [text.length / 4] is an
    exact rational, modelled in [Q].
  - Arrays that are shared and mutated live in an explicit store
    ([st_heap]); a chunk's [overlap] field is a reference into it.
  - File access, console output, timestamps and path handling are left
    out: they do not influence any value studied here. *)

From Stdlib Require Import ZArith Lia String Ascii List Bool QArith Qround.
From Stdlib Require Import Sorted DecimalString DecimalZ Permutation.
From stdpp Require Import base list sorting.
Import ListNotations.

Local Open Scope Z_scope.

(** ** JavaScript string primitives used by the two scripts *)

Module JS.

Definition newline : ascii := "010"%char.

(** [s.split('\n')]: never the empty array; [''.split('\n')] is ['']. *)
Fixpoint split (s : string) : list string :=
  match s with
  | EmptyString => [EmptyString]
  | String c s' =>
      if Ascii.eqb c newline then EmptyString :: split s'
      else match split s' with
           | [] => [String c EmptyString]
           | l :: ls => String c l :: ls
           end
  end.

(** [a.join('\n')]. *)
Definition join (a : list string) : string :=
  String.concat (String newline EmptyString) a.

(** WhiteSpace and LineTerminator code units below 256: what [\s]
    matches and what [trim] strips. *)
Definition isSpace (c : ascii) : bool :=
  let n := nat_of_ascii c in
  ((9 <=? n) && (n <=? 13) || (n =? 32) || (n =? 160))%nat.

Fixpoint trimStart (s : string) : string :=
  match s with
  | EmptyString => EmptyString
  | String c s' => if isSpace c then trimStart s' else s
  end.

Fixpoint trimEnd (s : string) : string :=
  match s with
  | EmptyString => EmptyString
  | String c s' =>
      match trimEnd s' with
      | EmptyString => if isSpace c then EmptyString else String c EmptyString
      | t => String c t
      end
  end.

Definition trim (s : string) : string := trimEnd (trimStart s).

Definition startsWith (s p : string) : bool := String.prefix p s.

Definition lowerChar (c : ascii) : ascii :=
  let n := nat_of_ascii c in
  if ((65 <=? n) && (n <=? 90)
      || (192 <=? n) && (n <=? 222) && negb (n =? 215))%nat
  then ascii_of_nat (n + 32) else c.

Fixpoint toLowerCase (s : string) : string :=
  match s with
  | EmptyString => EmptyString
  | String c s' => String (lowerChar c) (toLowerCase s')
  end.

End JS.

(** ** The regular expressions of the scripts

  A backtracking matcher in continuation-passing style, with the
  priorities of the JavaScript engine: alternatives left to right,
  greedy star, an iteration of a star must consume input. *)

Module Regex.

Inductive re : Type :=
| Chr (p : ascii -> bool)
| Eps
| Seq (r1 r2 : re)
| Alt (r1 r2 : re)
| Star (r : re).

Fixpoint m {A : Type} (r : re) : string -> (string -> option A) -> option A :=
  match r with
  | Chr p => fun s k =>
      match s with
      | String c s' => if p c then k s' else None
      | EmptyString => None
      end
  | Eps => fun s k => k s
  | Seq r1 r2 => fun s k => m r1 s (fun s' => m r2 s' k)
  | Alt r1 r2 => fun s k =>
      match m r1 s k with
      | Some a => Some a
      | None => m r2 s k
      end
  | Star r' => fun s k =>
      (fix iterate (fuel : nat) (s : string) : option A :=
         match fuel with
         | O => k s
         | S fuel' =>
             match m r' s (fun s' =>
                             if (String.length s' <? String.length s)%nat
                             then iterate fuel' s' else None) with
             | Some a => Some a
             | None => k s
             end
         end) (S (String.length s)) s
  end.

(** [r.exec(s)] for a pattern without flags: the leftmost position at
    which [r] matches, as the pair of the text from the match start and
    the text after the match. *)
Fixpoint exec (r : re) (s : string) : option (string * string) :=
  match m r s Some with
  | Some rest => Some (s, rest)
  | None =>
      match s with
      | EmptyString => None
      | String _ s' => exec r s'
      end
  end.

(** [r.test(s)], [r] without the g flag (no [lastIndex] state). *)
Definition test (r : re) (s : string) : bool :=
  match exec r s with Some _ => true | None => false end.

(** Number of entries of [s.match(r)] for [r] with the g flag (0 for
    null): successive leftmost matches, an empty match advancing the
    search by one code unit. *)
Fixpoint countFrom (fuel : nat) (r : re) (s : string) : Z :=
  match fuel with
  | O => 0
  | S fuel' =>
      match exec r s with
      | None => 0
      | Some (start, rest) =>
          if (String.length rest <? String.length start)%nat
          then 1 + countFrom fuel' r rest
          else match start with
               | EmptyString => 1
               | String _ t => 1 + countFrom fuel' r t
               end
      end
  end.

Definition countMatches (r : re) (s : string) : Z :=
  countFrom (S (String.length s)) r s.

(** Building blocks. *)
Definition chr (c : ascii) : re := Chr (Ascii.eqb c).

Fixpoint lit (s : string) : re :=
  match s with
  | EmptyString => Eps
  | String c EmptyString => chr c
  | String c s' => Seq (chr c) (lit s')
  end.

Definition space : re := Chr JS.isSpace.                       (* \s *)

Definition isWord (c : ascii) : bool :=
  let n := nat_of_ascii c in
  ((48 <=? n) && (n <=? 57) || (65 <=? n) && (n <=? 90)
   || (97 <=? n) && (n <=? 122) || (n =? 95))%nat.

Definition word : re := Chr isWord.                            (* \w *)

Definition dot : re :=                                         (* . *)
  Chr (fun c => negb (Ascii.eqb c "010" || Ascii.eqb c "013")).

Definition notChr (c : ascii) : re := Chr (fun d => negb (Ascii.eqb c d)).

Definition plus (r : re) : re := Seq r (Star r).               (* r+ *)

Fixpoint atLeast (n : nat) (r : re) : re :=                    (* r{n,} *)
  match n with
  | O => Star r
  | S n' => Seq r (atLeast n' r)
  end.

Fixpoint seqs (rs : list re) : re :=
  match rs with
  | [] => Eps
  | [r] => r
  | r :: rs' => Seq r (seqs rs')
  end.

End Regex.

(** ** The chunker script: class [FileChunker] *)

Module FileChunker.

(** The [options] object of the constructor.  [None] stands for a
    field that is absent or NaN (both falsy); the command line passes
    [parseInt] results. *)
Record options : Type := {
  opt_maxTokens : option Z;
  opt_overlap : option Z
}.

(** [v || d] on numbers: [d] replaces undefined, NaN and 0. *)
Definition orDefault (v : option Z) (d : Z) : Z :=
  match v with
  | Some n => if n =? 0 then d else n
  | None => d
  end.

(** The fields [this.maxTokens] and [this.overlap] of an instance. *)
Record chunker : Type := {
  this_maxTokens : Z;
  this_overlap : Z
}.

(** [constructor(options = {})]: no validation, no throw. *)
Definition new (o : options) : chunker :=
  {| this_maxTokens := orDefault (opt_maxTokens o) 4000;
     this_overlap := orDefault (opt_overlap o) 200 |}.

(** [estimateTokens(text)]: [Math.ceil(text.length / 4)]. *)
Definition estimateTokens (text : string) : Z :=
  Qceiling (inject_Z (Z.of_nat (String.length text)) / 4).

(** A chunk object.  [overlap] is a reference to an array in the store. *)
Record chunk : Type := {
  number : Z;
  content : string;
  startLine : Z;
  endLine : Z;
  tokens : Z;
  overlap : nat
}.

(** The store of line arrays is a [list (list string)]: a reference is
    an index, allocation appends. *)

Definition deref (h : list (list string)) (r : nat) : list string := default [] (h !! r).

(** The local variables of [createChunks] ([chunks] is never aliased,
    so it is kept by value). *)
Record state : Type := {
  st_heap : list (list string);
  chunks : list chunk;
  currentChunk : nat;
  currentTokens : Z;
  chunkNumber : Z
}.

Section Methods.

Variable this : chunker.

(** The loop of [getOverlapLines]: [pending] holds [chunk[i]],
    [chunk[i-1]], ... , [chunk[0]]. *)
Fixpoint overlapLoop (pending : list string) (overlapLines : list string)
         (tokens : Z) : list string :=
  match pending with
  | [] => overlapLines
  | line :: pending' =>
      if tokens <? this_overlap this
      then overlapLoop pending' (line :: overlapLines)
             (tokens + estimateTokens line)
      else overlapLines
  end.

Definition getOverlapLines (chunk : list string) : list string :=
  overlapLoop (rev chunk) [] 0.

(** One iteration of the [for] loop of [createChunks], at index [i]
    with [line = lines[i]]. *)
Definition body (i : nat) (line : string) (s : state) : state :=
  let lineTokens := estimateTokens line in
  let cur := deref (st_heap s) (currentChunk s) in
  let s1 :=
    if (currentTokens s + lineTokens >? this_maxTokens this)
       && (0 <? length cur)%nat
    then
      let overlapLines := getOverlapLines cur in
      let r := length (st_heap s) in
      {| st_heap := st_heap s ++ [overlapLines];
         chunks := chunks s ++
           [{| number := chunkNumber s;
               content := JS.join cur;
               startLine := Z.of_nat i - Z.of_nat (length cur) + 1;
               endLine := Z.of_nat i;
               tokens := currentTokens s;
               overlap := r |}];
         currentChunk := r;
         currentTokens := estimateTokens (JS.join overlapLines);
         chunkNumber := chunkNumber s + 1 |}
    else s in
  (* currentChunk.push(line); currentTokens += lineTokens *)
  {| st_heap := <[currentChunk s1 :=
                   deref (st_heap s1) (currentChunk s1) ++ [line]]>
                (st_heap s1);
     chunks := chunks s1;
     currentChunk := currentChunk s1;
     currentTokens := currentTokens s1 + lineTokens;
     chunkNumber := chunkNumber s1 |}.

Fixpoint loop (i : nat) (lines : list string) (s : state) : state :=
  match lines with
  | [] => s
  | line :: rest => loop (S i) rest (body i line s)
  end.

Definition init : state :=
  {| st_heap := [[]]; chunks := []; currentChunk := 0%nat;
     currentTokens := 0; chunkNumber := 1 |}.

(** The final [if (currentChunk.length > 0)] block. *)
Definition finish (n : nat) (s : state)
  : list (list string) * list chunk :=
  let cur := deref (st_heap s) (currentChunk s) in
  if (0 <? length cur)%nat
  then (st_heap s ++ [[]],
        chunks s ++
          [{| number := chunkNumber s;
              content := JS.join cur;
              startLine := Z.of_nat n - Z.of_nat (length cur) + 1;
              endLine := Z.of_nat n;
              tokens := currentTokens s;
              overlap := length (st_heap s) |}])
  else (st_heap s, chunks s).

(** [createChunks(content, filePath)].  [findBreakpoints] is called
    but its result is never read, so [filePath] plays no role; its
    [exec] loops end, none of its patterns matching the empty string.
    The result is the returned array together with the store its
    [overlap] references point into. *)
Definition createChunks (content : string)
  : list (list string) * list chunk :=
  let lines := JS.split content in
  finish (length lines) (loop 0 lines init).

End Methods.

(** What a caller reads in [c.overlap] after [createChunks] returned. *)
Definition overlapOf (res : list (list string) * list chunk) (c : chunk)
  : list string :=
  deref (fst res) (overlap c).

End FileChunker.


(** ** src/review.js: class [CodeReviewer] *)

Module CodeReviewer.

Inductive severity_level : Type := critical | high | medium | low | info.

(** A finding as [analyzeCode] pushes it; [line] is [index + 1] in the
    text that was analysed. *)
Record finding : Type := {
  line : Z;
  severity : severity_level;
  message : string;
  code : string
}.

Record pattern : Type := {
  regex : Regex.re;
  pat_severity : severity_level;
  pat_message : string
}.

Import Regex.

(** The table [patterns] of [analyzeCode]. *)
Definition security : list pattern :=
  [ {| regex := seqs [lit "eval"; Star space; chr "("];
       pat_severity := critical;
       pat_message := "Avoid using eval() - security risk" |};
    {| regex := seqs [lit "innerHTML"; Star space; chr "="];
       pat_severity := high;
       pat_message := "Direct innerHTML assignment - XSS risk" |};
    {| regex := seqs [lit "password"; Star space; chr "="; Star space;
                      Alt (chr "'") (chr "034")];
       pat_severity := critical;
       pat_message := "Hardcoded password detected" |} ].

Definition performance : list pattern :=
  [ {| regex := seqs [lit "for"; Star space; chr "("; Star dot; lit "in";
                      plus space];
       pat_severity := medium;
       pat_message := "for...in loop can be slow" |};
    {| regex := seqs [lit "document.querySelector"; Star dot; lit "inside";
                      Star dot; lit "loop"];
       pat_severity := high;
       pat_message := "DOM query inside loop" |} ].

Definition bestPractices : list pattern :=
  [ {| regex := seqs [lit "console.";
                      Alt (lit "log") (Alt (lit "error") (lit "warn"))];
       pat_severity := low;
       pat_message := "Remove console statements" |};
    {| regex := seqs [lit "var"; plus space; plus word; Star space; chr "="];
       pat_severity := info;
       pat_message := "Use const/let instead of var" |};
    {| regex := seqs [lit "function"; plus space; plus word; Star space;
                      chr "("; atLeast 40 (notChr ")")];
       pat_severity := medium;
       pat_message := "Too many parameters" |} ].

(** [patterns[template.toLowerCase()] || patterns.bestPractices].
    [None] is the one failing case: the keys [constructor] and
    [__proto__] are inherited from [Object.prototype], their values are
    truthy and have no [forEach], so the scan throws a TypeError. *)
Definition activePatterns (template : string) : option (list pattern) :=
  let key := JS.toLowerCase template in
  if String.eqb key "security" then Some security
  else if String.eqb key "performance" then Some performance
  else if String.eqb key "bestPractices" then Some bestPractices
  else if String.eqb key "constructor" || String.eqb key "__proto__" then None
  else Some bestPractices.

(** The inner [activePatterns.forEach] for one line. *)
Definition matchLine (pats : list pattern) (index : nat) (l : string)
  : list finding :=
  flat_map (fun p =>
              if test (regex p) l
              then [{| line := Z.of_nat index + 1;
                       severity := pat_severity p;
                       message := pat_message p;
                       code := JS.trim l |}]
              else []) pats.

(** The outer [lines.forEach((line, index) => ...)], pushing onto
    [findings]. *)
Fixpoint scanLines (pats : list pattern) (index : nat) (lines : list string)
         (findings : list finding) : list finding :=
  match lines with
  | [] => findings
  | l :: rest => scanLines pats (S index) rest (findings ++ matchLine pats index l)
  end.

Definition analyzeCode (content template : string) : option (list finding) :=
  match activePatterns template with
  | Some pats => Some (scanLines pats 0 (JS.split content) [])
  | None => None
  end.

(** [estimateTokens(text)]: [Math.ceil(text.length / 4)]. *)
Definition estimateTokens (text : string) : Z :=
  Qceiling (inject_Z (Z.of_nat (String.length text)) / 4).

Definition complexityIndicators : list re :=
  [ seqs [lit "if"; Star space; chr "("];
    seqs [lit "else"; Star space; chr "{"];
    seqs [lit "for"; Star space; chr "("];
    seqs [lit "while"; Star space; chr "("];
    seqs [lit "case"; plus space];
    seqs [lit "catch"; Star space; chr "("] ].

Definition estimateComplexity (content : string) : Z :=
  fold_left (fun complexity r => complexity + countMatches r content)
            complexityIndicators 1.

Record metrics_t : Type := {
  totalLines : Z;
  codeLines : Z;
  commentLines : Z;
  complexity : Z;
  tokens : Z
}.

Definition count (f : string -> bool) (lines : list string) : Z :=
  Z.of_nat (length (List.filter f lines)).

Definition calculateMetrics (content : string) : metrics_t :=
  let lines := JS.split content in
  {| totalLines := Z.of_nat (length lines);
     codeLines := count (fun l => (0 <? String.length (JS.trim l))%nat) lines;
     commentLines :=
       count (fun l => JS.startsWith (JS.trim l) "//"
                       || JS.startsWith (JS.trim l) "#") lines;
     complexity := estimateComplexity content;
     tokens := estimateTokens content |}.

(** The review object of [performReview], without the file name, the
    template name, the timestamp and the summary sentence. *)
Record review : Type := {
  chunkNumber : option Z;
  findings : list finding;
  metrics : metrics_t
}.

(** [performReview(content, templateName, filePath, chunkNumber)], with
    [templateName] the name [loadTemplate] resolved. *)
Definition performReview (content template : string) (chunkNumber : option Z)
  : option review :=
  match analyzeCode content template with
  | Some fs => Some {| chunkNumber := chunkNumber;
                       findings := fs;
                       metrics := calculateMetrics content |}
  | None => None
  end.

(** [{...finding, chunk: index + 1}]. *)
Record taggedFinding : Type := {
  base : finding;
  chunk : Z
}.

Record combinedReview : Type := {
  totalChunks : Z;
  allFindings : list taggedFinding;
  allMetrics : metrics_t
}.

(** [combined.metrics[key] += review.metrics[key] || 0] for the five keys. *)
Definition addMetrics (a b : metrics_t) : metrics_t :=
  {| totalLines := totalLines a + totalLines b;
     codeLines := codeLines a + codeLines b;
     commentLines := commentLines a + commentLines b;
     complexity := complexity a + complexity b;
     tokens := tokens a + tokens b |}.

Definition zeroMetrics : metrics_t :=
  {| totalLines := 0; codeLines := 0; commentLines := 0; complexity := 0;
     tokens := 0 |}.

(** The [reviews.forEach((review, index) => ...)] of [combineReviews]. *)
Fixpoint mergeLoop (index : nat) (reviews : list review)
         (combined : combinedReview) : combinedReview :=
  match reviews with
  | [] => combined
  | r :: rest =>
      mergeLoop (S index) rest
        {| totalChunks := totalChunks combined;
           allFindings :=
             allFindings combined ++
             map (fun f => {| base := f; chunk := Z.of_nat index + 1 |})
                 (findings r);
           allMetrics := addMetrics (allMetrics combined) (metrics r) |}
  end.

Definition combineReviews (reviews : list review) : combinedReview :=
  mergeLoop 0 reviews
    {| totalChunks := Z.of_nat (length reviews);
       allFindings := [];
       allMetrics := zeroMetrics |}.

(** The [for (const chunk of chunks)] loop of [reviewChunkedFile]. *)
Fixpoint reviewLoop (template : string) (chunks : list FileChunker.chunk)
         (reviews : list review) : option (list review) :=
  match chunks with
  | [] => Some reviews
  | c :: rest =>
      match performReview (FileChunker.content c) template
                          (Some (FileChunker.number c)) with
      | Some r => reviewLoop template rest (reviews ++ [r])
      | None => None
      end
  end.

(** [reviewChunkedFile(filePath, template)] on the text read from the
    file; [memory] is [this.config.memory], handed to the chunker's
    constructor as its options. *)
Definition reviewChunkedFile (memory : FileChunker.options)
           (template fileContent : string) : option combinedReview :=
  let chunker := FileChunker.new memory in
  let chunks := snd (FileChunker.createChunks chunker fileContent) in
  match reviewLoop template chunks [] with
  | Some reviews => Some (combineReviews reviews)
  | None => None
  end.

End CodeReviewer.


(** ** Running the chunker *)

Module Run.

Inductive exception : Type := ConfigurationError | TypeError.

Inductive outcome (A : Type) : Type :=
| Returned (a : A)
| Threw (e : exception).

Arguments Returned {A} a.
Arguments Threw {A} e.

(** What the command [chunker file <path>] runs on the text read from
    the file: [new FileChunker(options)], then [createChunks] inside
    [chunkFile], whose [catch] rethrows.  JavaScript signals failure by
    throwing; neither the constructor nor [createChunks] has a [throw]
    or a check on the budgets. *)
Definition chunkFile (o : FileChunker.options) (content : string)
  : outcome (list (list string) * list FileChunker.chunk) :=
  Returned (FileChunker.createChunks (FileChunker.new o) content).

End Run.

(** ** Reading a chunk list: overlap slice and new lines of each chunk *)

Module View.

Import FileChunker.

Fixpoint noNewline (s : string) : bool :=
  match s with
  | EmptyString => true
  | String c s' => negb (Ascii.eqb c JS.newline) && noNewline s'
  end.

(** Sum of the per-line estimates, the quantity [getOverlapLines] and
    the main loop accumulate. *)
Definition sumTokens (ls : list string) : Z :=
  fold_right (fun l acc => estimateTokens l + acc) 0 ls.

Definition chunkLines (c : chunk) : list string := JS.split (content c).

(** A chunk with its leading overlap slice and the lines that are new
    in it. *)
Record part : Type := {
  part_chunk : chunk;
  overlapSlice : list string;
  newLines : list string
}.

Section Parts.

Variable this : chunker.

(** The slice [createChunks] seeds a chunk with: what [getOverlapLines]
    returns on the lines of the chunk before it; nothing for the first. *)
Definition sliceAfter (prev : option chunk) : list string :=
  match prev with
  | None => []
  | Some p => getOverlapLines this (chunkLines p)
  end.

Fixpoint annotate (prev : option chunk) (cs : list chunk) : list part :=
  match cs with
  | [] => []
  | c :: cs' =>
      {| part_chunk := c;
         overlapSlice := sliceAfter prev;
         newLines := skipn (length (sliceAfter prev)) (chunkLines c) |}
      :: annotate (Some c) cs'
  end.

Definition parts (content : string) : list part :=
  annotate None (snd (createChunks this content)).

End Parts.

(** First original line that is new in the chunk, and the range of
    original line numbers of its new lines. *)
Definition newStart (p : part) : Z :=
  startLine (part_chunk p) + Z.of_nat (length (overlapSlice p)).

Definition newRange (p : part) : list Z :=
  seqZ (newStart p) (endLine (part_chunk p) - newStart p + 1).

(** Either estimate of an overlap slice: of the joined text (what
    [createChunks] charges the next chunk) and summed per line. *)
Definition sliceTokens (slice : list string) : Z :=
  estimateTokens (JS.join slice).

Definition validConfig (this : chunker) : Prop :=
  0 < this_overlap this < this_maxTokens this.

End View.

(** ** The structure [createChunks] maintains *)

Module Structure.

Import FileChunker View.

Section Invariant.

Variable this : chunker.

(** What holds of one chunk, read with its overlap slice and new lines. *)
Definition part_ok (p : part) : Prop :=
  let c := part_chunk p in
  chunkLines c = overlapSlice p ++ newLines p /\
  newLines p <> [] /\
  Forall (fun l => noNewline l = true) (chunkLines c) /\
  tokens c = sliceTokens (overlapSlice p) + sumTokens (newLines p) /\
  (tokens c <= this_maxTokens this \/ length (newLines p) = 1%nat).

(** Line numbers and sequence numbers, [n] original lines and [k - 1]
    chunks coming before. *)
Fixpoint layout (n k : Z) (ps : list part) : Prop :=
  match ps with
  | [] => True
  | p :: ps' =>
      startLine (part_chunk p) = n - Z.of_nat (length (overlapSlice p)) + 1 /\
      endLine (part_chunk p) = n + Z.of_nat (length (newLines p)) /\
      number (part_chunk p) = k /\
      layout (n + Z.of_nat (length (newLines p))) (k + 1) ps'
  end.

(** The loop invariant of [createChunks] once the lines [done] have
    been consumed. *)
Definition inv (done : list string) (s : state) : Prop :=
  let ps := annotate this None (chunks s) in
  let seed := sliceAfter this (last (chunks s)) in
  exists newCur : list string,
    st_heap s = map chunkLines (chunks s) ++ [seed ++ newCur] /\
    currentChunk s = length (chunks s) /\
    map overlap (chunks s) = seq 1 (length (chunks s)) /\
    Forall part_ok ps /\
    layout 0 1 ps /\
    chunkNumber s = 1 + Z.of_nat (length ps) /\
    Forall (fun l => noNewline l = true) (seed ++ newCur) /\
    done = concat (map newLines ps) ++ newCur /\
    currentTokens s = sliceTokens seed + sumTokens newCur /\
    (currentTokens s <= this_maxTokens this \/ (length newCur <= 1)%nat) /\
    (newCur = [] -> chunks s = []).

End Invariant.

End Structure.

(** ** Reading an aggregated result *)

Module Report.

Import CodeReviewer.

(** The order [critical > high > medium > low > info]. *)
Definition rank (s : severity_level) : Z :=
  match s with
  | critical => 4 | high => 3 | medium => 2 | low => 1 | info => 0
  end.

Definition adjacent {A : Type} (R : A -> A -> Prop) (l : list A) : Prop :=
  forall (i : nat) (a b : A), l !! i = Some a -> l !! S i = Some b -> R a b.

(** Severity first, then line, on the recorded [line]. *)
Definition bySeverityThenLine (a b : taggedFinding) : Prop :=
  rank (severity (base a)) >= rank (severity (base b)) /\
  (rank (severity (base a)) = rank (severity (base b)) ->
   line (base a) <= line (base b)).

(** Chunk first, then chunk-local line: the order of the merge. *)
Definition byChunkThenLine (a b : taggedFinding) : Prop :=
  chunk a < chunk b \/ (chunk a = chunk b /\ line (base a) <= line (base b)).

(** Findings carrying a given (line, message) key. *)
Definition hasKey (l : Z) (msg : string) (f : finding) : bool :=
  (line f =? l) && String.eqb (message f) msg.

Definition countKey (l : Z) (msg : string) (fs : list finding) : nat :=
  length (List.filter (hasKey l msg) fs).

(** Original-file line of a merged finding: the start line of the chunk
    it is tagged with, plus its chunk-local line, minus one. *)
Definition originalLine (chunks : list FileChunker.chunk) (f : taggedFinding)
  : option Z :=
  match chunks !! Z.to_nat (chunk f - 1) with
  | Some c => Some (FileChunker.startLine c + line (base f) - 1)
  | None => None
  end.

Definition sumZ (l : list Z) : Z := fold_right Z.add 0 l.

(** The review [performReview] builds for a chunk once the template has
    resolved to the rule list [pats]. *)
Definition chunkReview (pats : list pattern) (c : FileChunker.chunk) : review :=
  {| chunkNumber := Some (FileChunker.number c);
     findings := scanLines pats 0 (JS.split (FileChunker.content c)) [];
     metrics := calculateMetrics (FileChunker.content c) |}.

(** Chunk-local line order, the order [analyzeCode] emits. *)
Definition lineOrder (a b : finding) : Prop := line a <= line b.

End Report.

(** ** Sample inputs *)

Module Sample.

Import FileChunker.

Definition nl : string := String JS.newline EmptyString.

(** Three lines of 10, 15 and 10 code units: 3, 4 and 3 tokens. *)
Definition threeLines : string :=
  ("var a = 1;" ++ nl ++ "console.log(a);" ++ nl ++ "let b = 2;")%string.

Definition small : chunker := {| this_maxTokens := 7; this_overlap := 1 |}.
Definition smallOptions : options :=
  {| opt_maxTokens := Some 7; opt_overlap := Some 1 |}.

Definition tight : chunker := {| this_maxTokens := 6; this_overlap := 1 |}.

(** Two lines of 40 code units, 10 tokens each. *)
Definition twoLongLines : string :=
  ("aaaaaaaaaaaaaaaaaaaaaaaaaaaaaaaaaaaaaaaa" ++ nl ++
   "bbbbbbbbbbbbbbbbbbbbbbbbbbbbbbbbbbbbbbbb")%string.

Definition budget15 : chunker := {| this_maxTokens := 15; this_overlap := 5 |}.

Definition inverted : options :=
  {| opt_maxTokens := Some 10; opt_overlap := Some 20 |}.

Definition negative : options :=
  {| opt_maxTokens := Some (-4); opt_overlap := Some (-1) |}.

(** A review whose only finding sits at line 50. *)
Definition line50 : CodeReviewer.review :=
  {| CodeReviewer.chunkNumber := None;
     CodeReviewer.findings :=
       [{| CodeReviewer.line := 50;
           CodeReviewer.severity := CodeReviewer.low;
           CodeReviewer.message := "Remove console statements";
           CodeReviewer.code := "console.log(x)" |}];
     CodeReviewer.metrics := CodeReviewer.zeroMetrics |}.

(** Five lines of one code unit each: nine code units with the four
    newlines. *)
Definition fiveShortLines : string :=
  ("a" ++ nl ++ "b" ++ nl ++ "c" ++ nl ++ "d" ++ nl ++ "e")%string.

Definition budget3 : options :=
  {| opt_maxTokens := Some 3; opt_overlap := Some 1 |}.

(** Three lines of 10, 8 and 10 code units; the second calls [eval]. *)
Definition evalLines : string :=
  ("var a = 1;" ++ nl ++ "eval(a);" ++ nl ++ "let b = 2;")%string.

End Sample.

(** ** Numbers in text *)

Module Text.

(** [String(n)] and [`${n}`] for an integer below 10^21: decimal digits,
    a minus sign for a negative number. *)
Definition numberToString (z : Z) : string :=
  NilZero.string_of_int (Z.to_int z).

Fixpoint repeatChar (n : nat) (c : ascii) : string :=
  match n with
  | O => EmptyString
  | S n' => String c (repeatChar n' c)
  end.

(** [s.padStart(targetLength, pad)] for a one-unit [pad]. *)
Definition padStart (targetLength : nat) (pad : ascii) (s : string) : string :=
  (repeatChar (targetLength - String.length s) pad ++ s)%string.

End Text.

(** ** What [saveChunks] writes *)

Module Saved.

Import FileChunker.

(** One entry of [metadata.chunks]. *)
Record entry : Type := {
  e_number : Z;
  e_startLine : Z;
  e_endLine : Z;
  e_tokens : Z
}.

(** The object written to metadata.json, without its timestamp. *)
Record metadata : Type := {
  originalFile : string;
  totalChunks : Z;
  maxTokensPerChunk : Z;
  overlapTokens : Z;
  entries : list entry
}.

(** [`chunk_${String(chunk.number).padStart(3, '0')}${extension}`] *)
Definition chunkFileName (number : Z) (extension : string) : string :=
  ("chunk_" ++ Text.padStart 3 "0" (Text.numberToString number) ++ extension)%string.

(** The template literal [chunkHeader]; [total] is [chunks.length] and
    [baseName] is [path.basename(originalFilePath)]. *)
Definition chunkHeader (c : chunk) (total : nat) (baseName : string) : string :=
  ("// Chunk " ++ Text.numberToString (number c) ++ "/"
     ++ Text.numberToString (Z.of_nat total) ++ Sample.nl
   ++ "// Lines: " ++ Text.numberToString (startLine c) ++ "-"
     ++ Text.numberToString (endLine c) ++ Sample.nl
   ++ "// Tokens: ~" ++ Text.numberToString (tokens c) ++ Sample.nl
   ++ "// Original: " ++ baseName ++ Sample.nl
   ++ "// -----------------------------------" ++ Sample.nl
   ++ Sample.nl)%string.

(** [saveChunks(chunks, originalFilePath)]: the metadata object and, for
    each chunk, the name and the text of its file inside the chunk
    folder.  [baseName] and [extension] are [path.basename] and
    [path.extname] of [originalFilePath]. *)
Definition saveChunks (this : chunker) (chunks : list chunk)
           (originalFilePath baseName extension : string)
  : metadata * list (string * string) :=
  ({| originalFile := originalFilePath;
      totalChunks := Z.of_nat (length chunks);
      maxTokensPerChunk := this_maxTokens this;
      overlapTokens := this_overlap this;
      entries := map (fun c => {| e_number := number c;
                                  e_startLine := startLine c;
                                  e_endLine := endLine c;
                                  e_tokens := tokens c |}) chunks |},
   map (fun c => (chunkFileName (number c) extension,
                  (chunkHeader c (length chunks) baseName ++ content c)%string))
       chunks).

(** Reading the text back from a chunk list: of each chunk, the lines
    past the end line of the chunk before it. *)
Fixpoint reassembleFrom (prevEnd : Z) (cs : list chunk) : list string :=
  match cs with
  | [] => []
  | c :: cs' =>
      drop (Z.to_nat (prevEnd - startLine c + 1)) (View.chunkLines c)
      ++ reassembleFrom (endLine c) cs'
  end.

Definition reassemble (cs : list chunk) : string :=
  JS.join (reassembleFrom 0 cs).

End Saved.

(** ** src/review.js: the summary sentence and [reviewFile] *)

Module Flow.

Import CodeReviewer.

(** The object [severityCounts] of [generateSummary]. *)
Record severityCounts : Type := {
  n_critical : Z;
  n_high : Z;
  n_medium : Z;
  n_low : Z;
  n_info : Z
}.

(** [severityCounts[f.severity]++] *)
Definition bump (s : severity_level) (c : severityCounts) : severityCounts :=
  match s with
  | critical => {| n_critical := n_critical c + 1; n_high := n_high c;
                   n_medium := n_medium c; n_low := n_low c; n_info := n_info c |}
  | high => {| n_critical := n_critical c; n_high := n_high c + 1;
               n_medium := n_medium c; n_low := n_low c; n_info := n_info c |}
  | medium => {| n_critical := n_critical c; n_high := n_high c;
                 n_medium := n_medium c + 1; n_low := n_low c; n_info := n_info c |}
  | low => {| n_critical := n_critical c; n_high := n_high c;
              n_medium := n_medium c; n_low := n_low c + 1; n_info := n_info c |}
  | info => {| n_critical := n_critical c; n_high := n_high c;
               n_medium := n_medium c; n_low := n_low c; n_info := n_info c + 1 |}
  end.

Definition countSeverities (findings : list finding) : severityCounts :=
  fold_left (fun c f => bump (severity f) c) findings
    {| n_critical := 0; n_high := 0; n_medium := 0; n_low := 0; n_info := 0 |}.

Definition fallbackSummary : string :=
  "No significant issues found. Code meets quality standards.".

(** [generateSummary(findings)] *)
Definition generateSummary (findings : list finding) : string :=
  let c := countSeverities findings in
  let parts :=
    (if n_critical c >? 0
     then [(Text.numberToString (n_critical c) ++ " critical issues")%string]
     else [])
    ++ (if n_high c >? 0
        then [(Text.numberToString (n_high c) ++ " high priority issues")%string]
        else [])
    ++ (if n_medium c >? 0
        then [(Text.numberToString (n_medium c) ++ " medium priority issues")%string]
        else []) in
  if (0 <? length parts)%nat
  then ("Found " ++ String.concat ", " parts
        ++ ". Immediate attention required.")%string
  else fallbackSummary.

(** [review.summary] of [performReview] and [combined.summary] of
    [combineReviews] (a tagged finding has the severity of its base). *)
Definition reviewSummary (r : review) : string := generateSummary (findings r).

Definition combinedSummary (c : combinedReview) : string :=
  generateSummary (map base (allFindings c)).

(** Number of findings of one severity. *)
Definition hasSeverity (s : severity_level) (f : finding) : bool :=
  match s, severity f with
  | critical, critical | high, high | medium, medium | low, low | info, info => true
  | _, _ => false
  end.

Definition countOf (s : severity_level) (findings : list finding) : Z :=
  Z.of_nat (length (List.filter (hasSeverity s) findings)).

(** [this.config.memory]: the key [reviewFile] compares with, absent
    ([None]) or a number, and the keys the chunker's constructor reads
    when the same object is handed to it. *)
Record memoryConfig : Type := {
  maxTokensPerChunk : option Z;
  chunkerOptions : FileChunker.options
}.

Inductive reviewed : Type :=
| Whole (r : review)
| InChunks (c : combinedReview).

(** [reviewFile(filePath, options)] on the text read from the file, with
    [template] the name the selected template resolves to in
    [performReview].  A comparison with an absent key is false. *)
Definition reviewFile (memory : memoryConfig) (template fileContent : string)
  : option reviewed :=
  let estimatedTokens := estimateTokens fileContent in
  if match maxTokensPerChunk memory with
     | Some m => estimatedTokens >? m
     | None => false
     end
  then option_map InChunks
         (reviewChunkedFile (chunkerOptions memory) template fileContent)
  else option_map Whole (performReview fileContent template None).

(** A tagged finding back in the coordinates of the original file. *)
Definition translate (chunks : list FileChunker.chunk) (f : taggedFinding)
  : option finding :=
  match Report.originalLine chunks f with
  | Some l => Some {| line := l; severity := severity (base f);
                      message := message (base f); code := code (base f) |}
  | None => None
  end.

(** A finding [k] lines further down. *)
Definition moveDown (k : Z) (f : finding) : finding :=
  {| line := line f + k; severity := severity f; message := message f;
     code := code f |}.

End Flow.

(** ** src/review.js: [generateMarkdownReport] *)

Module Markdown.

Import CodeReviewer.

(** The object [findingsBySeverity]: a key is absent ([None]) or holds
    an array. *)
Definition pushGroup (g : severity_level -> option (list finding)) (f : finding)
  : severity_level -> option (list finding) :=
  fun s =>
    if Flow.hasSeverity s f
    then Some (match g s with Some l => l ++ [f] | None => [f] end)
    else g s.

Definition findingsBySeverity (findings : list finding)
  : severity_level -> option (list finding) :=
  fold_left pushGroup findings (fun _ => None).

(** [severity.toUpperCase()] for the five names. *)
Definition heading (s : severity_level) : string :=
  match s with
  | critical => "CRITICAL" | high => "HIGH" | medium => "MEDIUM"
  | low => "LOW" | info => "INFO"
  end.

Definition fence : string := "```".

Definition entry (f : finding) : string :=
  ("- **Line " ++ Text.numberToString (line f) ++ "**: " ++ message f
   ++ Sample.nl
   ++ "  " ++ fence ++ Sample.nl ++ "  " ++ code f ++ Sample.nl
   ++ "  " ++ fence ++ Sample.nl)%string.

Definition section (g : severity_level -> option (list finding))
           (s : severity_level) : string :=
  match g s with
  | Some l => ("### " ++ heading s ++ Sample.nl ++ Sample.nl
               ++ String.concat "" (map entry l) ++ Sample.nl)%string
  | None => EmptyString
  end.

Definition severities : list severity_level :=
  [critical; high; medium; low; info].

(** [generateMarkdownReport(review)], with [dateText] the text
    [toLocaleString] gives for the timestamp, [file] and [template] the
    fields of the review ([template] is absent in a combined review). *)
Definition generateMarkdownReport (file dateText : string)
           (template : option string) (summary : string)
           (m : metrics_t) (findings : list finding) : string :=
  ("# Code Review Report" ++ Sample.nl ++ Sample.nl
   ++ "**File:** " ++ file ++ Sample.nl
   ++ "**Date:** " ++ dateText ++ Sample.nl
   ++ "**Template:** "
   ++ match template with
      | Some EmptyString | None => "default"
      | Some t => t
      end ++ Sample.nl ++ Sample.nl
   ++ "## Summary" ++ Sample.nl ++ summary ++ Sample.nl ++ Sample.nl
   ++ "## Metrics" ++ Sample.nl
   ++ "- Total Lines: " ++ Text.numberToString (totalLines m) ++ Sample.nl
   ++ "- Code Lines: " ++ Text.numberToString (codeLines m) ++ Sample.nl
   ++ "- Comment Lines: " ++ Text.numberToString (commentLines m) ++ Sample.nl
   ++ "- Complexity: " ++ Text.numberToString (complexity m) ++ Sample.nl
   ++ "- Estimated Tokens: " ++ Text.numberToString (tokens m) ++ Sample.nl
   ++ Sample.nl
   ++ if (0 <? length findings)%nat
      then "## Findings" ++ Sample.nl ++ Sample.nl
           ++ String.concat "" (map (section (findingsBySeverity findings))
                                    severities)
      else "## Findings" ++ Sample.nl ++ "No issues detected." ++ Sample.nl
           ++ Sample.nl)%string.

(** The findings in the order the report lists them. *)
Definition listed (findings : list finding) : list finding :=
  concat (map (fun s => List.filter (Flow.hasSeverity s) findings) severities).

Definition rankOrder (a b : finding) : Prop :=
  Report.rank (severity a) >= Report.rank (severity b).

(** The text of one severity's group: nothing for no finding, else the
    heading, the entries in the order given and a blank line. *)
Definition renderGroup (s : severity_level) (l : list finding) : string :=
  match l with
  | [] => EmptyString
  | _ => ("### " ++ heading s ++ Sample.nl ++ Sample.nl
          ++ String.concat "" (map entry l) ++ Sample.nl)%string
  end.

(** A list of findings written out from first to last: each finding's
    entry in turn, a heading before a finding whose severity differs
    from that of the finding before it ([prev]), and a blank line where
    a run of one severity ends. *)
Fixpoint renderInOrder (prev : option severity_level) (l : list finding)
  : string :=
  match l with
  | [] => match prev with Some _ => Sample.nl | None => EmptyString end
  | f :: l' =>
      (match prev with
       | Some p =>
           if Flow.hasSeverity p f then EmptyString
           else (Sample.nl ++ "### " ++ heading (severity f)
                 ++ Sample.nl ++ Sample.nl)%string
       | None => ("### " ++ heading (severity f) ++ Sample.nl ++ Sample.nl)%string
       end ++ entry f ++ renderInOrder (Some (severity f)) l')%string
  end.

(** The blank line that ends a run when another heading or the end of
    the list follows. *)
Definition closer (prev : option severity_level) : string :=
  match prev with Some _ => Sample.nl | None => EmptyString end.

(** The findings part of the report of a review without findings. *)
Definition noFindingsPart : string :=
  ("## Findings" ++ Sample.nl ++ "No issues detected." ++ Sample.nl
   ++ Sample.nl)%string.

End Markdown.
(** * Properties *)

(** ** Token estimates *)

Section Estimates.

Import FileChunker.

Lemma ceil_quarter (n : Z) : Qceiling (inject_Z n / 4) = (n + 3) / 4.
Proof.
  unfold Qceiling, Qfloor, Qdiv, Qmult, Qinv, Qopp, inject_Z; simpl.
  rewrite Z.mul_1_r. Z.div_mod_to_equations. lia.
Qed.

Lemma estimateTokens_eq (s : string) :
  estimateTokens s = (Z.of_nat (String.length s) + 3) / 4.
Proof. apply ceil_quarter. Qed.

Lemma estimateTokens_nonneg (s : string) : 0 <= estimateTokens s.
Proof.
  rewrite estimateTokens_eq. apply Z.div_pos; lia.
Qed.

Lemma sumTokens_app (a b : list string) :
  View.sumTokens (a ++ b) = View.sumTokens a + View.sumTokens b.
Proof.
  induction a as [|l a IH]; simpl; [lia|]. rewrite IH. lia.
Qed.

Lemma sumTokens_nonneg (a : list string) : 0 <= View.sumTokens a.
Proof.
  induction a as [|l a IH]; simpl; [lia|].
  pose proof (estimateTokens_nonneg l). lia.
Qed.

End Estimates.

(** ** [split] and [join] *)

Section SplitJoin.

Import JS.

Lemma split_not_nil (s : string) : split s <> [].
Proof.
  induction s as [|c s IH]; simpl; [discriminate|].
  destruct (Ascii.eqb c newline); [discriminate|].
  destruct (split s); [contradiction|discriminate].
Qed.

Lemma split_noNewline (s : string) :
  Forall (fun l => View.noNewline l = true) (split s).
Proof.
  induction s as [|c s IH]; simpl.
  - repeat constructor.
  - destruct (Ascii.eqb c newline) eqn:E.
    + constructor; [reflexivity|assumption].
    + pose proof (split_not_nil s) as Hne.
      destruct (split s) as [|l ls]; [congruence|].
      inversion IH; subst. constructor; [|assumption].
      simpl. rewrite E. simpl. assumption.
Qed.

Lemma join_cons_cons (x y : string) (ls : list string) :
  join (x :: y :: ls) = (x ++ String newline (join (y :: ls)))%string.
Proof. reflexivity. Qed.

Lemma join_push_char (c : ascii) (l : string) (ls : list string) :
  join (String c l :: ls) = String c (join (l :: ls)).
Proof. destruct ls; reflexivity. Qed.

Lemma join_split (s : string) : join (split s) = s.
Proof.
  induction s as [|c s IH]; simpl; [reflexivity|].
  destruct (Ascii.eqb c newline) eqn:E.
  - apply Ascii.eqb_eq in E. subst c.
    pose proof (split_not_nil s) as Hne.
    destruct (split s) as [|l ls]; [congruence|].
    rewrite join_cons_cons, IH. reflexivity.
  - pose proof (split_not_nil s) as Hne.
    destruct (split s) as [|l ls]; [congruence|].
    rewrite join_push_char, IH. reflexivity.
Qed.

Lemma split_line (x : string) : View.noNewline x = true -> split x = [x].
Proof.
  induction x as [|c x IH]; simpl; [reflexivity|].
  intros H. apply andb_prop in H as [H1 H2].
  apply negb_true_iff in H1. rewrite H1, (IH H2). reflexivity.
Qed.

Lemma split_line_then (x t : string) :
  View.noNewline x = true ->
  split (x ++ String newline t) = x :: split t.
Proof.
  induction x as [|c x IH]; simpl; intros H.
  - reflexivity.
  - apply andb_prop in H as [H1 H2]. apply negb_true_iff in H1.
    rewrite H1, (IH H2). reflexivity.
Qed.

Lemma split_join (ls : list string) :
  ls <> [] -> Forall (fun l => View.noNewline l = true) ls ->
  split (join ls) = ls.
Proof.
  induction ls as [|x ls IH]; [congruence|].
  intros _ H. inversion H as [|? ? Hx Hls]; subst.
  destruct ls as [|y ls].
  - apply split_line; assumption.
  - rewrite join_cons_cons, split_line_then by assumption.
    f_equal. apply IH; [discriminate|assumption].
Qed.

End SplitJoin.

(** ** [getOverlapLines] *)

Section Overlap.

Import FileChunker View.

Variable this : chunker.

Lemma overlapLoop_taken (pending acc : list string) (t : Z) :
  exists k : nat, overlapLoop this pending acc t = rev (take k pending) ++ acc.
Proof.
  revert acc t. induction pending as [|l pending IH]; intros acc t; simpl.
  - exists 0%nat. reflexivity.
  - destruct (t <? this_overlap this).
    + destruct (IH (l :: acc) (t + estimateTokens l)) as [k Hk].
      exists (S k). rewrite Hk. simpl. rewrite <- app_assoc. reflexivity.
    + exists 0%nat. reflexivity.
Qed.

Lemma getOverlapLines_suffix (chunk : list string) :
  getOverlapLines this chunk `suffix_of` chunk.
Proof.
  unfold getOverlapLines.
  destruct (overlapLoop_taken (rev chunk) [] 0) as [k Hk].
  rewrite Hk, app_nil_r.
  exists (rev (drop k (rev chunk))).
  rewrite <- rev_app_distr, take_drop, rev_involutive. reflexivity.
Qed.

Lemma overlapLoop_budget (pending acc : list string) (t : Z) :
  t = sumTokens acc ->
  sumTokens (tail acc) < this_overlap this ->
  sumTokens (tail (overlapLoop this pending acc t)) < this_overlap this.
Proof.
  revert acc t. induction pending as [|l pending IH]; intros acc t Ht Hb; simpl.
  - assumption.
  - destruct (t <? this_overlap this) eqn:E; [|assumption].
    apply IH; simpl; [lia|]. apply Z.ltb_lt in E. lia.
Qed.

(** The slice without its first line stays under the overlap budget. *)
Lemma getOverlapLines_budget (chunk : list string) :
  0 < this_overlap this ->
  sumTokens (tail (getOverlapLines this chunk)) < this_overlap this.
Proof.
  intros H. unfold getOverlapLines. apply overlapLoop_budget; simpl; lia.
Qed.

Lemma getOverlapLines_nil : getOverlapLines this [] = [].
Proof. reflexivity. Qed.

Lemma getOverlapLines_not_nil (chunk : list string) :
  0 < this_overlap this -> chunk <> [] -> getOverlapLines this chunk <> [].
Proof.
  intros H Hne. unfold getOverlapLines.
  destruct (rev chunk) as [|l pending] eqn:E.
  - apply (f_equal (@rev string)) in E. rewrite rev_involutive in E.
    simpl in E. congruence.
  - simpl. apply Z.ltb_lt in H. rewrite H.
    destruct (overlapLoop_taken pending [l] (0 + estimateTokens l)) as [k Hk].
    rewrite Hk. intros Hnil. apply app_eq_nil in Hnil as [_ Hnil]. discriminate.
Qed.

End Overlap.

(** ** The loop of [createChunks] *)

Section Loop.

Import FileChunker View Structure.

Variable this : chunker.

Lemma annotate_snoc (prev : option chunk) (cs : list chunk) (c : chunk) :
  annotate this prev (cs ++ [c]) =
  annotate this prev cs ++
    [{| part_chunk := c;
        overlapSlice :=
          sliceAfter this (match last cs with Some x => Some x | None => prev end);
        newLines :=
          skipn (length (sliceAfter this
                   (match last cs with Some x => Some x | None => prev end)))
                (chunkLines c) |}].
Proof.
  revert prev. induction cs as [|x cs IH]; intros prev; simpl; [reflexivity|].
  rewrite IH. do 3 f_equal.
  all: destruct cs as [|y cs]; simpl; try reflexivity;
    destruct (last (y :: cs)) eqn:E; try reflexivity;
    apply last_None in E; discriminate.
Qed.

Lemma length_annotate (prev : option chunk) (cs : list chunk) :
  length (annotate this prev cs) = length cs.
Proof.
  revert prev. induction cs as [|x cs IH]; intros prev; simpl; [|rewrite IH]; reflexivity.
Qed.

Lemma layout_snoc (n k : Z) (ps : list part) (p : part) :
  layout n k ps ->
  startLine (part_chunk p) =
    n + Z.of_nat (length (concat (map newLines ps)))
    - Z.of_nat (length (overlapSlice p)) + 1 ->
  endLine (part_chunk p) =
    n + Z.of_nat (length (concat (map newLines ps)))
    + Z.of_nat (length (newLines p)) ->
  number (part_chunk p) = k + Z.of_nat (length ps) ->
  layout n k (ps ++ [p]).
Proof.
  revert n k. induction ps as [|q ps IH]; intros n k HL Hs He Hn; simpl in *.
  - repeat split; lia.
  - destruct HL as (H1 & H2 & H3 & H4). repeat split; try assumption.
    apply IH; [assumption| | |]; rewrite ?length_app in *; lia.
Qed.

Lemma deref_last (cs : list (list string)) (x : list string) (r : nat) :
  r = length cs -> deref (cs ++ [x]) r = x.
Proof.
  intros ->. unfold deref. rewrite lookup_app_r by lia.
  rewrite Nat.sub_diag. reflexivity.
Qed.

Lemma insert_last (cs : list (list string)) (x y : list string) (r : nat) :
  r = length cs -> <[r := y]> (cs ++ [x]) = cs ++ [y].
Proof.
  intros ->. rewrite insert_app_r_alt by lia. rewrite Nat.sub_diag. reflexivity.
Qed.

(** Closing the chunk in progress: the new chunk is well formed and the
    chunk list keeps its layout. *)
Lemma close_chunk (done : list string) (s : state) (newCur : list string) (r : nat) :
  let ps := annotate this None (chunks s) in
  let seed := sliceAfter this (last (chunks s)) in
  let c := {| number := chunkNumber s;
              content := JS.join (seed ++ newCur);
              startLine := Z.of_nat (length done)
                           - Z.of_nat (length (seed ++ newCur)) + 1;
              endLine := Z.of_nat (length done);
              tokens := currentTokens s;
              overlap := r |} in
  seed ++ newCur <> [] ->
  Forall (part_ok this) ps ->
  layout 0 1 ps ->
  chunkNumber s = 1 + Z.of_nat (length ps) ->
  Forall (fun l => noNewline l = true) (seed ++ newCur) ->
  done = concat (map newLines ps) ++ newCur ->
  currentTokens s = sliceTokens seed + sumTokens newCur ->
  (currentTokens s <= this_maxTokens this \/ (length newCur <= 1)%nat) ->
  (newCur = [] -> chunks s = []) ->
  chunkLines c = seed ++ newCur /\
  annotate this None (chunks s ++ [c]) =
    ps ++ [{| part_chunk := c; overlapSlice := seed; newLines := newCur |}] /\
  Forall (part_ok this) (annotate this None (chunks s ++ [c])) /\
  layout 0 1 (annotate this None (chunks s ++ [c])).
Proof.
  intros ps seed c Hne Hok Hlay Hnum Hnl Hdone Htok Hbud Hfirst.
  assert (Hlines : chunkLines c = seed ++ newCur).
  { unfold chunkLines; simpl. apply split_join; assumption. }
  assert (Hann : annotate this None (chunks s ++ [c]) =
    ps ++ [{| part_chunk := c; overlapSlice := seed; newLines := newCur |}]).
  { rewrite annotate_snoc. fold ps. f_equal. f_equal.
    assert (Hl : match last (chunks s) with Some x => Some x | None => None end
                 = last (chunks s)) by (destruct (last (chunks s)); reflexivity).
    rewrite Hl. fold seed. rewrite Hlines.
    rewrite drop_app_length. reflexivity. }
  assert (Hnew : newCur <> []).
  { intros ->. specialize (Hfirst eq_refl). subst seed.
    rewrite Hfirst in Hne. simpl in Hne. congruence. }
  split; [assumption|]. split; [assumption|]. rewrite Hann. split.
  - apply Forall_app; split; [assumption|]. constructor; [|constructor].
    unfold part_ok; simpl. rewrite Hlines.
    repeat split; try assumption.
    destruct Hbud as [Hb|Hb]; [left; assumption|right].
    destruct newCur; simpl in *; [congruence|lia].
  - apply layout_snoc; simpl; try assumption;
      subst done; rewrite ?length_app in *; lia.
Qed.

Lemma body_inv (done : list string) (line : string) (s : state) :
  inv this done s ->
  noNewline line = true ->
  inv this (done ++ [line]) (body this (length done) line s).
Proof.
  intros (newCur & Hheap & Hcur & Hov & Hok & Hlay & Hnum & Hnl & Hdone & Htok
          & Hbud & Hfirst) Hline.
  set (seed := sliceAfter this (last (chunks s))) in *.
  assert (Hd : deref (st_heap s) (currentChunk s) = seed ++ newCur).
  { rewrite Hheap, Hcur. apply deref_last. rewrite length_map. reflexivity. }
  unfold body. rewrite Hd.
  destruct ((currentTokens s + estimateTokens line >? this_maxTokens this)
            && (0 <? length (seed ++ newCur))%nat) eqn:Hcond.
  - (* the chunk in progress is closed *)
    apply andb_prop in Hcond as [_ Hlen]. apply Nat.ltb_lt in Hlen.
    assert (Hne : seed ++ newCur <> []) by (intros E; rewrite E in Hlen; simpl in Hlen; lia).
    pose proof (close_chunk done s newCur (length (st_heap s)) Hne Hok Hlay Hnum
                  Hnl Hdone Htok Hbud Hfirst) as Hclose.
    cbv zeta in Hclose. fold seed in Hclose.
    destruct Hclose as (Hlines & Hann & Hok' & Hlay').
    set (c := {| number := chunkNumber s; content := JS.join (seed ++ newCur);
                 startLine := _; endLine := _; tokens := _; overlap := _ |}) in *.
    unfold inv; simpl.
    assert (Hseed' : sliceAfter this (last (chunks s ++ [c]))
                     = getOverlapLines this (seed ++ newCur)).
    { rewrite last_snoc.
      change (sliceAfter this (Some c)) with (getOverlapLines this (chunkLines c)).
      rewrite Hlines. reflexivity. }
    rewrite Hseed'.
    set (ovl := getOverlapLines this (seed ++ newCur)) in *.
    exists [line].
    assert (Hheap' : st_heap s ++ [ovl] = map chunkLines (chunks s ++ [c]) ++ [ovl]).
    { rewrite map_app. simpl. rewrite Hlines, Hheap. reflexivity. }
    assert (Hlen' : length (st_heap s) = length (chunks s ++ [c])).
    { rewrite Hheap, !length_app, length_map. reflexivity. }
    rewrite Hheap', Hlen'.
    rewrite deref_last, insert_last by (rewrite length_map; reflexivity).
    repeat split; try assumption.
    + rewrite map_app, length_app, seq_app, Hov. simpl.
      rewrite Hheap, length_app, length_map. simpl.
      do 3 f_equal. lia.
    + rewrite Hann, length_app. simpl. rewrite Hnum. fold (annotate this None (chunks s)). lia.
    + apply Forall_app; split; [|repeat constructor; assumption].
      destruct (getOverlapLines_suffix this (seed ++ newCur)) as [pre Hpre].
      fold ovl in Hpre. rewrite Hpre in Hnl. apply Forall_app in Hnl. tauto.
    + rewrite Hann, map_app, concat_app. simpl. rewrite app_nil_r.
      rewrite Hdone. reflexivity.
    + simpl. unfold sliceTokens. lia.
    + right. simpl. lia.
    + discriminate.
  - (* the line joins the chunk in progress *)
    unfold inv; simpl. fold seed. exists (newCur ++ [line]).
    rewrite Hd, Hheap, Hcur, insert_last by (rewrite length_map; reflexivity).
    rewrite app_assoc.
    repeat split; try assumption.
    + apply Forall_app; split; [assumption|repeat constructor; assumption].
    + rewrite Hdone, app_assoc. reflexivity.
    + rewrite sumTokens_app. simpl. lia.
    + apply andb_false_iff in Hcond as [Hc|Hc].
      * left. rewrite Z.gtb_ltb, Z.ltb_ge in Hc. lia.
      * right. apply Nat.ltb_ge in Hc.
        destruct seed, newCur; simpl in *; try lia.
    + intros E. apply app_eq_nil in E as [_ E]. discriminate.
Qed.

Lemma loop_inv (rest done : list string) (s : state) :
  inv this done s ->
  Forall (fun l => noNewline l = true) rest ->
  inv this (done ++ rest) (loop this (length done) rest s).
Proof.
  revert done s. induction rest as [|line rest IH]; intros done s Hinv Hnl; simpl.
  - rewrite app_nil_r. assumption.
  - inversion Hnl as [|? ? Hl Hr]; subst.
    replace (done ++ line :: rest) with ((done ++ [line]) ++ rest)
      by (rewrite <- app_assoc; reflexivity).
    replace (S (length done)) with (length (done ++ [line]))
      by (rewrite length_app; simpl; lia).
    apply IH; [|assumption]. apply body_inv; assumption.
Qed.

Lemma init_inv : inv this [] init.
Proof.
  exists []. simpl.
  repeat split; try reflexivity; try (right; simpl; lia); constructor.
Qed.

End Loop.

(** ** The chunk list returned by [createChunks] *)

Section Result.

Import FileChunker View Structure.

Variable this : chunker.

Lemma createChunks_structure (content : string) :
  let res := createChunks this content in
  let ps := parts this content in
  Forall (part_ok this) ps /\
  layout 0 1 ps /\
  concat (map newLines ps) = JS.split content /\
  fst res = map chunkLines (snd res) ++ [[]] /\
  map overlap (snd res) = seq 1 (length (snd res)) /\
  snd res <> [].
Proof.
  unfold parts, createChunks.
  pose proof (loop_inv this (JS.split content) [] init (init_inv this)
                (split_noNewline content)) as Hinv.
  simpl in Hinv. set (s := loop this 0 (JS.split content) init) in *.
  destruct Hinv as (newCur & Hheap & Hcur & Hov & Hok & Hlay & Hnum & Hnl
                    & Hdone & Htok & Hbud & Hfirst).
  set (seed := sliceAfter this (last (chunks s))) in *.
  assert (Hd : deref (st_heap s) (currentChunk s) = seed ++ newCur).
  { rewrite Hheap, Hcur. apply deref_last. rewrite length_map. reflexivity. }
  unfold finish. rewrite Hd.
  destruct (0 <? length (seed ++ newCur))%nat eqn:Hlen.
  - apply Nat.ltb_lt in Hlen.
    assert (Hne : seed ++ newCur <> [])
      by (intros E; rewrite E in Hlen; simpl in Hlen; lia).
    pose proof (close_chunk this (JS.split content) s newCur (length (st_heap s))
                  Hne Hok Hlay Hnum Hnl Hdone Htok Hbud Hfirst) as Hclose.
    cbv zeta in Hclose. fold seed in Hclose.
    destruct Hclose as (Hlines & Hann & Hok' & Hlay').
    simpl.
    set (c := {| number := chunkNumber s; content := JS.join (seed ++ newCur);
                 startLine := _; endLine := _; tokens := _; overlap := _ |}) in *.
    repeat split; try assumption.
    + rewrite Hann, map_app, concat_app. simpl. rewrite app_nil_r. congruence.
    + rewrite map_app. simpl. rewrite Hlines, Hheap. reflexivity.
    + rewrite map_app, length_app, seq_app, Hov. simpl.
      rewrite Hheap, length_app, length_map. simpl.
      do 3 f_equal. lia.
    + intros E. apply app_eq_nil in E as [_ E]. discriminate.
  - exfalso. apply Nat.ltb_ge in Hlen.
    assert (E : seed ++ newCur = []) by (destruct (seed ++ newCur); simpl in *; [reflexivity|lia]).
    apply app_eq_nil in E as [_ E].
    specialize (Hfirst E). rewrite Hfirst in Hdone. simpl in Hdone. subst newCur.
    apply (split_not_nil content). assumption.
Qed.

(** Consecutive parts: the overlap slice of the later one is what
    [getOverlapLines] returns on the lines of the earlier one. *)
Lemma annotate_next (prev : option chunk) (cs : list chunk) (i : nat) (p q : part) :
  annotate this prev cs !! i = Some p ->
  annotate this prev cs !! S i = Some q ->
  overlapSlice q = getOverlapLines this (chunkLines (part_chunk p)).
Proof.
  revert prev i. induction cs as [|c cs IH]; intros prev i Hp Hq; [discriminate|].
  destruct i as [|i]; simpl in *.
  - inversion Hp; subst. destruct cs; simpl in Hq; [discriminate|].
    inversion Hq; subst. reflexivity.
  - apply (IH _ _ Hp Hq).
Qed.

Lemma annotate_first (cs : list chunk) (p : part) :
  annotate this None cs !! 0%nat = Some p -> overlapSlice p = [].
Proof.
  destruct cs; simpl; intros H; [discriminate|]. inversion H; subst. reflexivity.
Qed.

Lemma annotate_chunks (prev : option chunk) (cs : list chunk) :
  map part_chunk (annotate this prev cs) = cs.
Proof.
  revert prev. induction cs as [|c cs IH]; intros prev; simpl; [|rewrite IH]; reflexivity.
Qed.

(** Every chunk is a window of the original lines, starting at its
    [startLine]. *)
Lemma annotate_window (cs : list chunk) :
  forall (prev : option chunk) (before : list string) (k : Z),
  let ps := annotate this prev cs in
  Forall (part_ok this) ps ->
  layout (Z.of_nat (length before)) k ps ->
  sliceAfter this prev `suffix_of` before ->
  Forall (fun p =>
            1 <= startLine (part_chunk p) /\
            chunkLines (part_chunk p) =
            take (length (chunkLines (part_chunk p)))
                 (drop (Z.to_nat (startLine (part_chunk p) - 1))
                       (before ++ concat (map newLines ps)))) ps.
Proof.
  induction cs as [|c cs IH]; intros prev before k ps Hok Hlay Hsuf; [constructor|].
  subst ps. simpl in *.
  inversion Hok as [|? ? Hc Hrest]; subst.
  destruct Hlay as (Hs & He & Hn & Hlay).
  destruct Hc as (Hlines & Hnew & Hnl & _). simpl in *.
  set (slice := sliceAfter this prev) in *.
  set (new := drop (length slice) (chunkLines c)) in *.
  destruct Hsuf as [pre Hpre].
  assert (Hstart : Z.to_nat (startLine c - 1) = length pre).
  { rewrite Hs, Hpre, length_app. lia. }
  constructor.
  - cbv beta. cbn [part_chunk].
    split. { rewrite Hs, Hpre, length_app. lia. }
    rewrite Hstart, Hpre, <- !app_assoc, drop_app_length.
    rewrite Hlines at 1. rewrite Hlines, app_assoc, take_app_length. reflexivity.
  - assert (Hsuf' : sliceAfter this (Some c) `suffix_of` before ++ new).
    { simpl. etransitivity; [apply getOverlapLines_suffix|].
      rewrite Hlines, Hpre, <- app_assoc. apply suffix_app_r. reflexivity. }
    specialize (IH (Some c) (before ++ new) (k + 1) Hrest).
    rewrite length_app, Nat2Z.inj_add in IH. specialize (IH Hlay Hsuf').
    rewrite <- app_assoc in IH. exact IH.
Qed.

Lemma parts_window (content : string) :
  Forall (fun p =>
            1 <= startLine (part_chunk p) /\
            chunkLines (part_chunk p) =
            take (length (chunkLines (part_chunk p)))
                 (drop (Z.to_nat (startLine (part_chunk p) - 1))
                       (JS.split content))) (parts this content).
Proof.
  destruct (createChunks_structure content) as (Hok & Hlay & Hcat & _).
  pose proof (annotate_window (snd (createChunks this content)) None [] 1
                Hok Hlay) as H.
  simpl in H. fold (parts this content) in H. rewrite Hcat in H.
  apply H. reflexivity.
Qed.

End Result.

(** ** [analyzeCode] and [combineReviews] *)

Section Reviewer.

Import CodeReviewer Report.

Lemma matchLine_elem (pats : list pattern) (index : nat) (l : string) (f : finding) :
  f ∈ matchLine pats index l <->
  exists p, p ∈ pats /\ Regex.test (regex p) l = true /\
            f = {| line := Z.of_nat index + 1; severity := pat_severity p;
                   message := pat_message p; code := JS.trim l |}.
Proof.
  unfold matchLine. rewrite list_elem_of_In, in_flat_map. split.
  - intros (p & Hp & Hf). exists p. rewrite list_elem_of_In.
    destruct (Regex.test (regex p) l); simpl in Hf; [|contradiction].
    destruct Hf as [Hf|[]]. auto.
  - intros (p & Hp & Ht & ->). exists p. rewrite <- list_elem_of_In.
    rewrite Ht. simpl. auto.
Qed.

Lemma scanLines_elem (pats : list pattern) (lines : list string) :
  forall (index : nat) (acc : list finding) (f : finding),
  f ∈ scanLines pats index lines acc <->
  f ∈ acc \/ exists (i : nat) (l : string),
              lines !! i = Some l /\ f ∈ matchLine pats (index + i) l.
Proof.
  induction lines as [|l lines IH]; intros index acc f; simpl.
  - split; [auto|]. intros [H|(i & l & H & _)]; [assumption|discriminate].
  - rewrite IH, elem_of_app. split.
    + intros [[H|H]|(i & l' & Hi & Hf)]; [auto| |].
      * right. exists 0%nat, l. rewrite Nat.add_0_r. auto.
      * right. exists (S i), l'. rewrite Nat.add_succ_r. auto.
    + intros [H|(i & l' & Hi & Hf)]; [auto|].
      destruct i as [|i]; simpl in Hi.
      * inversion Hi; subst. rewrite Nat.add_0_r in Hf. auto.
      * right. exists i, l'. rewrite Nat.add_succ_r in Hf. auto.
Qed.

Lemma scanLines_sorted (pats : list pattern) (lines : list string) :
  forall (index : nat) (acc : list finding),
  StronglySorted lineOrder acc ->
  Forall (fun f => line f <= Z.of_nat index) acc ->
  StronglySorted lineOrder (scanLines pats index lines acc).
Proof.
  induction lines as [|l lines IH]; intros index acc Hs Hb; simpl; [assumption|].
  assert (Hm : Forall (fun f => line f = Z.of_nat index + 1) (matchLine pats index l)).
  { apply Forall_forall. intros f Hf. apply matchLine_elem in Hf as (p & _ & _ & ->).
    reflexivity. }
  apply IH.
  - apply StronglySorted_app_2; [|assumption|].
    + intros a b Ha Hb'. rewrite Forall_forall in Hb, Hm.
      unfold lineOrder. rewrite (Hm b Hb'). specialize (Hb a Ha). lia.
    + induction Hm as [|f fs Hf Hfs IHm]; constructor; [assumption|].
      apply Forall_forall. intros b Hb'. rewrite Forall_forall in Hfs.
      unfold lineOrder. rewrite Hf, (Hfs b Hb'). lia.
  - apply Forall_app; split.
    + eapply Forall_impl; [exact Hb|]. simpl. intros; lia.
    + eapply Forall_impl; [exact Hm|]. simpl. intros; lia.
Qed.

Lemma mergeLoop_base (rs : list review) :
  forall (index : nat) (c0 : combinedReview),
  map base (allFindings (mergeLoop index rs c0)) =
  map base (allFindings c0) ++ concat (map findings rs).
Proof.
  induction rs as [|r rs IH]; intros index c0; simpl.
  - rewrite app_nil_r. reflexivity.
  - rewrite IH. simpl. rewrite map_app, map_map. simpl. rewrite map_id.
    rewrite <- app_assoc. reflexivity.
Qed.

Lemma mergeLoop_elem (rs : list review) :
  forall (index : nat) (c0 : combinedReview) (tf : taggedFinding),
  tf ∈ allFindings (mergeLoop index rs c0) <->
  tf ∈ allFindings c0 \/
  exists (j : nat) (r : review),
    rs !! j = Some r /\ chunk tf = Z.of_nat (index + j) + 1 /\ base tf ∈ findings r.
Proof.
  induction rs as [|r rs IH]; intros index c0 tf; simpl.
  - split; [auto|]. intros [H|(j & r & H & _)]; [assumption|discriminate].
  - rewrite IH. simpl. rewrite elem_of_app, list_elem_of_fmap. split.
    + intros [[H|(f & -> & Hf)]|(j & r' & Hj & Hc & Hf)]; [auto| |].
      * right. exists 0%nat, r. simpl. rewrite Nat.add_0_r. auto.
      * right. exists (S j), r'. simpl. rewrite Nat.add_succ_r. auto.
    + intros [H|(j & r' & Hj & Hc & Hf)]; [auto|].
      destruct j as [|j]; simpl in Hj.
      * inversion Hj; subst. left. right. exists (base tf).
        rewrite Nat.add_0_r in Hc. destruct tf; simpl in *. subst. auto.
      * right. exists j, r'. rewrite Nat.add_succ_r in Hc. auto.
Qed.

Lemma byChunkThenLine_trans (a b c : taggedFinding) :
  byChunkThenLine a b -> byChunkThenLine b c -> byChunkThenLine a c.
Proof. unfold byChunkThenLine. lia. Qed.

Lemma mergeLoop_sorted (rs : list review) :
  forall (index : nat) (c0 : combinedReview),
  Forall (fun r => StronglySorted lineOrder (findings r)) rs ->
  StronglySorted byChunkThenLine (allFindings c0) ->
  Forall (fun tf => chunk tf <= Z.of_nat index) (allFindings c0) ->
  StronglySorted byChunkThenLine (allFindings (mergeLoop index rs c0)).
Proof.
  induction rs as [|r rs IH]; intros index c0 Hrs Hs Hb; simpl; [assumption|].
  inversion Hrs as [|? ? Hr Hrest]; subst.
  apply IH; [assumption| |]; simpl.
  - apply StronglySorted_app_2; [|assumption|].
    + intros a b Ha Hb'. apply list_elem_of_fmap in Hb' as (f & -> & _).
      rewrite Forall_forall in Hb. specialize (Hb a Ha).
      left. simpl. lia.
    + induction Hr as [|f fs Hfs IHr Hf]; simpl; constructor; [assumption|].
      apply Forall_forall. intros b Hb'.
      apply list_elem_of_fmap in Hb' as (g & -> & Hg).
      rewrite Forall_forall in Hf. right. simpl. split; [reflexivity|].
      apply (Hf g Hg).
  - apply Forall_app; split.
    + eapply Forall_impl; [exact Hb|]. simpl. intros; lia.
    + apply Forall_forall. intros b Hb'.
      apply list_elem_of_fmap in Hb' as (g & -> & Hg). simpl. lia.
Qed.

Lemma StronglySorted_adjacent {A : Type} (R : A -> A -> Prop) (l : list A) :
  StronglySorted R l -> adjacent R l.
Proof.
  intros Hs. induction Hs as [|x l Hl IH Hx]; intros i a b Ha Hb.
  - discriminate.
  - destruct i as [|i]; simpl in *.
    + inversion Ha; subst. rewrite Forall_forall in Hx. apply Hx.
      apply list_elem_of_lookup. exists 0%nat. assumption.
    + apply (IH i); assumption.
Qed.

Lemma mergeLoop_metrics (rs : list review) :
  forall (index : nat) (c0 : combinedReview) (field : metrics_t -> Z),
  (forall a b, field (addMetrics a b) = field a + field b) ->
  field (allMetrics (mergeLoop index rs c0)) =
  field (allMetrics c0) + sumZ (map (fun r => field (metrics r)) rs).
Proof.
  induction rs as [|r rs IH]; intros index c0 field Hadd; simpl.
  - lia.
  - rewrite IH by assumption. simpl. rewrite Hadd. lia.
Qed.

Lemma reviewLoop_some (template : string) (pats : list pattern)
      (cs : list FileChunker.chunk) :
  activePatterns template = Some pats ->
  forall acc : list review,
  reviewLoop template cs acc = Some (acc ++ map (chunkReview pats) cs).
Proof.
  intros Hp. induction cs as [|c cs IH]; intros acc; simpl.
  - rewrite app_nil_r. reflexivity.
  - unfold performReview, analyzeCode. rewrite Hp. rewrite IH.
    rewrite <- app_assoc. reflexivity.
Qed.

Lemma reviewChunkedFile_some (memory : FileChunker.options)
      (template content : string) (pats : list pattern) :
  activePatterns template = Some pats ->
  reviewChunkedFile memory template content =
  Some (combineReviews
          (map (chunkReview pats)
               (snd (FileChunker.createChunks (FileChunker.new memory) content)))).
Proof.
  intros Hp. unfold reviewChunkedFile.
  rewrite (reviewLoop_some template pats _ Hp). reflexivity.
Qed.

Lemma chunkReview_sorted (pats : list pattern) (cs : list FileChunker.chunk) :
  Forall (fun r => StronglySorted lineOrder (findings r)) (map (chunkReview pats) cs).
Proof.
  apply Forall_forall. intros r Hr.
  apply list_elem_of_fmap in Hr as (c & -> & _). simpl.
  apply scanLines_sorted; constructor.
Qed.

End Reviewer.

(** ** Line ranges *)

Section Ranges.

Import FileChunker View Structure.

Variable this : chunker.

Lemma layout_ranges (ps : list part) :
  forall n k : Z,
  layout n k ps ->
  concat (map newRange ps)
  = seqZ (n + 1) (Z.of_nat (length (concat (map newLines ps)))) /\
  map (fun p => number (part_chunk p)) ps = seqZ k (Z.of_nat (length ps)).
Proof.
  induction ps as [|p ps IH]; intros n k Hlay; simpl.
  - split; reflexivity.
  - destruct Hlay as (Hs & He & Hn & Hlay).
    destruct (IH _ _ Hlay) as [IH1 IH2]. split.
    + rewrite IH1, length_app, Nat2Z.inj_add, seqZ_app by lia.
      f_equal; [|f_equal; lia].
      unfold newRange, newStart. f_equal; lia.
    + rewrite IH2, Hn.
      replace (Z.of_nat (S (length ps))) with (1 + Z.of_nat (length ps)) by lia.
      rewrite seqZ_app by lia. reflexivity.
Qed.

(** Coverage, for any budgets: the new lines of the chunks, taken in
    order, are the lines of the text, and their ranges tile
    [1 .. number of lines]. *)
Lemma coverage (content : string) :
  let ps := parts this content in
  concat (map newLines ps) = JS.split content /\
  Forall (fun p => chunkLines (part_chunk p) = overlapSlice p ++ newLines p /\
                   newLines p <> []) ps /\
  concat (map newRange ps) = seqZ 1 (Z.of_nat (length (JS.split content))) /\
  map (fun p => number (part_chunk p)) ps = seqZ 1 (Z.of_nat (length ps)).
Proof.
  destruct (createChunks_structure this content) as (Hok & Hlay & Hcat & _).
  destruct (layout_ranges _ _ _ Hlay) as [Hr Hn].
  simpl. repeat split; try assumption.
  - eapply Forall_impl; [exact Hok|]. intros p (H1 & H2 & _). auto.
  - rewrite Hr, Hcat. reflexivity.
Qed.

End Ranges.

(** * The claims *)

Section Claims.

Import FileChunker View Structure.

(** C8 — empty text: for every configuration [createChunks] returns one
    chunk for the empty text, numbered 1, with empty content, covering
    lines 1 to 1, of 0 tokens; not the empty list: [''.split('\n')] is
    [['']], so the guard of the final block holds. *)
Theorem empty_text_yields_one_chunk (this : chunker) :
  snd (createChunks this EmptyString) =
  [{| number := 1; content := EmptyString; startLine := 1; endLine := 1;
      tokens := 0; overlap := 1%nat |}].
Proof.
  unfold createChunks. simpl. unfold body. simpl.
  rewrite andb_false_r. reflexivity.
Qed.

(** C4 — coverage: under a valid configuration, the new lines of the
    chunks of [createChunks], concatenated in order, are the lines of
    the text; every chunk is its overlap slice followed by at least one
    new line; the ranges of original line numbers of the new lines tile
    [1 .. number of lines] in ascending order; and the chunks are
    numbered 1, 2, ... *)
Theorem new_lines_reconstruct_file (this : chunker) (content : string) :
  validConfig this ->
  let ps := parts this content in
  concat (map newLines ps) = JS.split content /\
  Forall (fun p => chunkLines (part_chunk p) = overlapSlice p ++ newLines p /\
                   newLines p <> []) ps /\
  concat (map newRange ps) = seqZ 1 (Z.of_nat (length (JS.split content))) /\
  map (fun p => number (part_chunk p)) ps = seqZ 1 (Z.of_nat (length ps)).
Proof. intros _. apply coverage. Qed.

Lemma new_lines_reconstruct_file_witness :
  let ps := parts Sample.small Sample.threeLines in
  concat (map newLines ps) = JS.split Sample.threeLines /\
  Forall (fun p => chunkLines (part_chunk p) = overlapSlice p ++ newLines p /\
                   newLines p <> []) ps /\
  concat (map newRange ps)
  = seqZ 1 (Z.of_nat (length (JS.split Sample.threeLines))) /\
  map (fun p => number (part_chunk p)) ps = seqZ 1 (Z.of_nat (length ps)).
Proof.
  apply (new_lines_reconstruct_file Sample.small Sample.threeLines).
  unfold validConfig. simpl. lia.
Defined.

(** C5, as the code has it — budget: under a valid configuration the
    recorded token count of every chunk is the estimate of its joined
    overlap slice plus the per-line estimates of its new lines, and it
    is at most [maxTokens] unless the chunk holds exactly one new line. *)
Theorem chunk_within_budget_or_single_new_line (this : chunker) (content : string) :
  validConfig this ->
  Forall (fun p =>
            tokens (part_chunk p)
            = sliceTokens (overlapSlice p) + sumTokens (newLines p) /\
            (tokens (part_chunk p) <= this_maxTokens this \/
             length (newLines p) = 1%nat))
         (parts this content).
Proof.
  intros _. destruct (createChunks_structure this content) as (Hok & _).
  eapply Forall_impl; [exact Hok|]. intros p (_ & _ & _ & H1 & H2). auto.
Qed.

Lemma chunk_within_budget_or_single_new_line_witness :
  Forall (fun p =>
            tokens (part_chunk p)
            = sliceTokens (overlapSlice p) + sumTokens (newLines p) /\
            (tokens (part_chunk p) <= this_maxTokens Sample.tight \/
             length (newLines p) = 1%nat))
         (parts Sample.tight Sample.threeLines).
Proof.
  apply (chunk_within_budget_or_single_new_line Sample.tight Sample.threeLines).
  unfold validConfig. simpl. lia.
Defined.

(** C5, as stated, fails: with [maxTokens = 6] and [overlap = 1] the
    second chunk of the three-line sample holds two lines, each within
    the budget, and totals 7 tokens, by its [tokens] field and by the
    estimate of its content alike. *)
Lemma two_line_chunk_over_budget :
  validConfig Sample.tight /\
  exists c : chunk,
    snd (createChunks Sample.tight Sample.threeLines) !! 1%nat = Some c /\
    chunkLines c = ["var a = 1;"; "console.log(a);"]%string /\
    Forall (fun l => estimateTokens l <= this_maxTokens Sample.tight)
           (chunkLines c) /\
    tokens c = 7 /\ estimateTokens (content c) = 7 /\
    ~ (tokens c <= this_maxTokens Sample.tight) /\
    ~ (estimateTokens (content c) <= this_maxTokens Sample.tight).
Proof.
  split; [unfold validConfig; simpl; lia|].
  eexists. split; [vm_compute; reflexivity|].
  split; [vm_compute; reflexivity|].
  split; [repeat constructor; vm_compute; discriminate|].
  split; [reflexivity|]. split; [vm_compute; reflexivity|].
  split; vm_compute; intros H; apply H; reflexivity.
Qed.

(** C3, as the code has it — overlap: under a valid configuration, for
    every chunk after the first, the overlap slice is what
    [getOverlapLines] returns on the lines of the chunk before, a
    non-empty suffix of them that opens the chunk; its lines after the
    first total less than [overlap] tokens, so the whole slice exceeds
    the budget by less than the estimate of its first line. *)
Theorem overlap_slice_over_budget_by_less_than_first_line
        (this : chunker) (content : string) (i : nat) (p q : part) :
  validConfig this ->
  parts this content !! i = Some p ->
  parts this content !! S i = Some q ->
  overlapSlice q = getOverlapLines this (chunkLines (part_chunk p)) /\
  overlapSlice q `suffix_of` chunkLines (part_chunk p) /\
  overlapSlice q `prefix_of` chunkLines (part_chunk q) /\
  overlapSlice q <> [] /\
  sumTokens (tail (overlapSlice q)) < this_overlap this /\
  sumTokens (overlapSlice q)
  < this_overlap this + estimateTokens (hd EmptyString (overlapSlice q)).
Proof.
  intros [Hpos _] Hp Hq.
  destruct (createChunks_structure this content) as (Hok & _).
  pose proof (annotate_next this None _ i p q Hp Hq) as Hslice.
  rewrite Forall_forall in Hok.
  assert (Hpok : part_ok this p) by (apply Hok, list_elem_of_lookup; eauto).
  assert (Hqok : part_ok this q) by (apply Hok, list_elem_of_lookup; eauto).
  destruct Hpok as (Hpl & Hpn & _). destruct Hqok as (Hql & _).
  assert (Hne : overlapSlice q <> []).
  { rewrite Hslice. apply getOverlapLines_not_nil; [assumption|].
    rewrite Hpl. intros E. apply app_eq_nil in E as [_ E]. contradiction. }
  assert (Hb : sumTokens (tail (overlapSlice q)) < this_overlap this).
  { rewrite Hslice. apply getOverlapLines_budget. assumption. }
  repeat split; try assumption.
  - rewrite Hslice. apply getOverlapLines_suffix.
  - rewrite Hql. exists (newLines q). reflexivity.
  - destruct (overlapSlice q); simpl in *; [congruence|lia].
Qed.

Lemma overlap_slice_over_budget_by_less_than_first_line_witness :
  exists p q : part,
    parts Sample.budget15 Sample.twoLongLines !! 0%nat = Some p /\
    parts Sample.budget15 Sample.twoLongLines !! 1%nat = Some q /\
    sumTokens (tail (overlapSlice q)) < this_overlap Sample.budget15.
Proof.
  eexists. eexists.
  split; [vm_compute; reflexivity|]. split; [vm_compute; reflexivity|].
  refine (proj1 (proj2 (proj2 (proj2 (proj2
    (overlap_slice_over_budget_by_less_than_first_line
       Sample.budget15 Sample.twoLongLines 0 _ _ _ eq_refl eq_refl)))))).
  unfold validConfig. simpl. lia.
Defined.

(** C3, as stated, fails: with [maxTokens = 15] and [overlap = 5], the
    second chunk of two 40-unit lines is seeded with the whole first
    line, an overlap slice of 10 tokens by either estimate. *)
Lemma overlap_slice_exceeds_budget :
  validConfig Sample.budget15 /\
  exists q : part,
    parts Sample.budget15 Sample.twoLongLines !! 1%nat = Some q /\
    overlapSlice q = ["aaaaaaaaaaaaaaaaaaaaaaaaaaaaaaaaaaaaaaaa"]%string /\
    sumTokens (overlapSlice q) = 10 /\ sliceTokens (overlapSlice q) = 10 /\
    ~ (sumTokens (overlapSlice q) <= this_overlap Sample.budget15) /\
    ~ (sliceTokens (overlapSlice q) <= this_overlap Sample.budget15).
Proof.
  split; [unfold validConfig; simpl; lia|].
  eexists. split; [vm_compute; reflexivity|].
  split; [reflexivity|].
  split; [vm_compute; reflexivity|]. split; [vm_compute; reflexivity|].
  split; vm_compute; intros H; apply H; reflexivity.
Qed.

End Claims.

Section ChunkerClaims.

Import FileChunker View Structure.

(** X7 — The array stored in a chunk's [overlap] field is the one the next
    chunk is built in: once [createChunks] has returned, the field of a
    chunk reads as all the lines of the chunk after it, and as the empty
    array for the last chunk. *)
Lemma overlap_field_is_next_chunk (this : chunker) (content : string)
      (i : nat) (c : chunk) :
  let res := createChunks this content in
  snd res !! i = Some c ->
  overlapOf res c =
  match snd res !! S i with Some d => chunkLines d | None => [] end.
Proof.
  intros res Hc.
  destruct (createChunks_structure this content) as (_ & _ & _ & Hh & Hov & _).
  fold res in Hh, Hov.
  assert (Hr : overlap c = S i).
  { assert (H : map overlap (snd res) !! i = Some (overlap c))
      by (rewrite list_lookup_fmap, Hc; reflexivity).
    rewrite Hov in H. apply lookup_seq in H. lia. }
  unfold overlapOf, deref. rewrite Hh, Hr.
  destruct (snd res !! S i) as [d|] eqn:Hd.
  - rewrite lookup_app_l by (rewrite length_map; eapply lookup_lt_Some; eauto).
    rewrite list_lookup_fmap, Hd. reflexivity.
  - apply lookup_ge_None in Hd.
    assert (Hi : (i < length (snd res))%nat) by (eapply lookup_lt_Some; eauto).
    rewrite lookup_app_r by (rewrite length_map; lia).
    rewrite length_map.
    replace (S i - length (snd res))%nat with 0%nat by lia. reflexivity.
Qed.

(** C6, as the code has it — configuration: for every options object,
    whatever the relation between its budgets, construction and
    chunking return and never throw; a field that is absent, NaN or 0
    is replaced by the default (4000 tokens, 200 overlap), any other
    value is used as given; the chunk list is not empty and its new
    lines are the lines of the text. *)
Theorem chunking_never_rejects_a_configuration (o : options) (content : string) :
  exists (h : list (list string)) (cs : list chunk),
    Run.chunkFile o content = Run.Returned (h, cs) /\
    cs <> [] /\
    concat (map newLines (annotate (new o) None cs)) = JS.split content /\
    this_maxTokens (new o) = orDefault (opt_maxTokens o) 4000 /\
    this_overlap (new o) = orDefault (opt_overlap o) 200 /\
    (forall n, opt_maxTokens o = Some n -> n <> 0 -> this_maxTokens (new o) = n) /\
    (forall n, opt_overlap o = Some n -> n <> 0 -> this_overlap (new o) = n).
Proof.
  unfold Run.chunkFile.
  destruct (createChunks (new o) content) as [h cs] eqn:E.
  exists h, cs.
  destruct (createChunks_structure (new o) content) as (_ & _ & _ & _ & _ & Hne).
  destruct (coverage (new o) content) as (Hcat & _).
  unfold parts in Hcat. rewrite E in Hne, Hcat. simpl in Hne, Hcat.
  repeat split; try assumption.
  - intros n Hn Hz. simpl. rewrite Hn. simpl.
    destruct (n =? 0) eqn:En; [apply Z.eqb_eq in En; contradiction|reflexivity].
  - intros n Hn Hz. simpl. rewrite Hn. simpl.
    destruct (n =? 0) eqn:En; [apply Z.eqb_eq in En; contradiction|reflexivity].
Qed.

(** C6, as stated, fails: options with [overlap = 20 >= maxTokens = 10]
    are accepted and two chunks come back; negative budgets are
    accepted as well; zero budgets are replaced by the defaults. *)
Lemma inverted_budgets_are_accepted :
  this_maxTokens (new Sample.inverted) <= this_overlap (new Sample.inverted) /\
  (exists (h : list (list string)) (c1 c2 : chunk),
      Run.chunkFile Sample.inverted Sample.twoLongLines
      = Run.Returned (h, [c1; c2])) /\
  Run.chunkFile Sample.inverted Sample.twoLongLines
  <> Run.Threw Run.ConfigurationError /\
  this_maxTokens (new Sample.negative) <= 0 /\
  (exists (h : list (list string)) (c1 c2 : chunk),
      Run.chunkFile Sample.negative Sample.twoLongLines
      = Run.Returned (h, [c1; c2])) /\
  new {| opt_maxTokens := Some 0; opt_overlap := Some 0 |}
  = {| this_maxTokens := 4000; this_overlap := 200 |}.
Proof.
  split; [simpl; lia|].
  split; [do 3 eexists; vm_compute; reflexivity|].
  split; [discriminate|].
  split; [simpl; lia|].
  split; [do 3 eexists; vm_compute; reflexivity|].
  reflexivity.
Qed.

End ChunkerClaims.

Section ReviewerClaims.

Import CodeReviewer Report View Structure.

Lemma countKey_concat (l : Z) (msg : string) (fss : list (list finding)) :
  countKey l msg (concat fss) = sum_list (map (countKey l msg) fss).
Proof.
  unfold countKey. induction fss as [|fs fss IH]; simpl; [reflexivity|].
  rewrite List.filter_app, length_app, IH. reflexivity.
Qed.

Lemma combineReviews_base (reviews : list review) :
  map base (allFindings (combineReviews reviews)) = concat (map findings reviews).
Proof. unfold combineReviews. rewrite mergeLoop_base. reflexivity. Qed.

Lemma mergeLoop_tagged (rs : list review) :
  forall (index : nat) (c0 : combinedReview),
  allFindings (mergeLoop index rs c0) =
  allFindings c0 ++
  concat (imap (fun j r =>
                  map (fun f => {| base := f; chunk := Z.of_nat (index + j) + 1 |})
                      (findings r)) rs).
Proof.
  induction rs as [|r rs IH]; intros index c0; simpl.
  - rewrite app_nil_r. reflexivity.
  - rewrite IH. simpl. rewrite <- app_assoc, Nat.add_0_r. do 2 f_equal.
    f_equal. apply imap_ext. intros j r' _. simpl.
    rewrite Nat.add_succ_r. reflexivity.
Qed.

(** C1, as the code has it — no deduplication: the aggregated findings
    are the per-chunk finding lists one after the other, in chunk order,
    every finding of the list at position [j] (counted from 0) tagged
    with the chunk index [j + 1] and otherwise untouched; hence, tags
    apart, they are the concatenation of the per-chunk lists, and the
    number of aggregated findings with a given (line, message) key is
    the sum of the numbers of such findings in the per-chunk lists. *)
Theorem merge_keeps_every_finding (reviews : list review) (l : Z) (msg : string) :
  allFindings (combineReviews reviews)
  = concat (imap (fun j r =>
                    map (fun f => {| base := f; chunk := Z.of_nat j + 1 |})
                        (findings r)) reviews) /\
  map base (allFindings (combineReviews reviews)) = concat (map findings reviews) /\
  countKey l msg (map base (allFindings (combineReviews reviews)))
  = sum_list (map (fun r => countKey l msg (findings r)) reviews).
Proof.
  split; [unfold combineReviews; rewrite mergeLoop_tagged; reflexivity|].
  split; [apply combineReviews_base|].
  rewrite combineReviews_base, countKey_concat, map_map. reflexivity.
Qed.

(** C1, as stated, fails.  Two per-chunk lists holding the same finding
    at line 50 aggregate to two findings with that key; and on the
    three-line sample, whose second line is analysed in both chunks,
    the aggregated result reports that line twice. *)
Lemma overlapped_finding_reported_twice :
  countKey 50 "Remove console statements"
    (map base (allFindings (combineReviews [Sample.line50; Sample.line50])))
  = 2%nat /\
  exists (combined : combinedReview) (x a b : taggedFinding),
    reviewChunkedFile Sample.smallOptions "best-practices" Sample.threeLines
    = Some combined /\
    allFindings combined = [x; a; b] /\
    chunk a = 1 /\ chunk b = 2 /\
    message (base a) = message (base b) /\
    originalLine (snd (FileChunker.createChunks Sample.small Sample.threeLines)) a
    = Some 2 /\
    originalLine (snd (FileChunker.createChunks Sample.small Sample.threeLines)) b
    = Some 2.
Proof.
  split; [reflexivity|].
  do 4 eexists. split; [vm_compute; reflexivity|].
  split; [reflexivity|]. repeat split; vm_compute; reflexivity.
Qed.

Lemma chunk_lookup_part (this : FileChunker.chunker) (content : string)
      (j : nat) (c : FileChunker.chunk) :
  snd (FileChunker.createChunks this content) !! j = Some c ->
  exists p : part, parts this content !! j = Some p /\ part_chunk p = c.
Proof.
  intros Hc. unfold parts.
  rewrite <- (annotate_chunks this None (snd (FileChunker.createChunks this content))) in Hc.
  rewrite list_lookup_fmap in Hc.
  destruct (annotate this None _ !! j) as [p|]; simpl in Hc; [|discriminate].
  inversion Hc. eauto.
Qed.

(** C2, as the code has it — no translation: every aggregated finding
    carries the 1-based index of its chunk and the line number
    [analyzeCode] gave it inside that chunk's content, [index + 1]; the
    flagged text is the line of the original file numbered
    [startLine + line - 1], a number the result does not hold. *)
Theorem merged_findings_keep_chunk_local_lines
        (memory : FileChunker.options) (template content : string)
        (pats : list pattern) :
  activePatterns template = Some pats ->
  let cs := snd (FileChunker.createChunks (FileChunker.new memory) content) in
  exists combined : combinedReview,
    reviewChunkedFile memory template content = Some combined /\
    forall tf : taggedFinding,
      tf ∈ allFindings combined ->
      exists (c : FileChunker.chunk) (i : nat) (l : string),
        cs !! Z.to_nat (chunk tf - 1) = Some c /\
        FileChunker.number c = chunk tf /\
        chunkLines c !! i = Some l /\
        line (base tf) = Z.of_nat i + 1 /\
        code (base tf) = JS.trim l /\
        originalLine cs tf = Some (FileChunker.startLine c + Z.of_nat i) /\
        JS.split content !! Z.to_nat (FileChunker.startLine c + Z.of_nat i - 1)
        = Some l.
Proof.
  intros Hp cs. eexists. split; [apply (reviewChunkedFile_some _ _ _ _ Hp)|].
  fold cs. intros tf Htf. unfold combineReviews in Htf.
  apply mergeLoop_elem in Htf as [Htf|(j & r & Hj & Hc & Hf)];
    [simpl in Htf; inversion Htf|].
  rewrite list_lookup_fmap in Hj.
  destruct (cs !! j) as [c|] eqn:Hcj; simpl in Hj; [|discriminate].
  inversion Hj; subst r; clear Hj. simpl in Hf, Hc.
  apply scanLines_elem in Hf as [Hf|(i & l & Hi & Hf)]; [inversion Hf|].
  apply matchLine_elem in Hf as (p & _ & _ & Hf). simpl in Hf.
  destruct (chunk_lookup_part _ _ _ _ Hcj) as (pt & Hpt & Hpc).
  destruct (coverage (FileChunker.new memory) content) as (_ & _ & _ & Hnum).
  pose proof (parts_window (FileChunker.new memory) content) as Hwin.
  rewrite Forall_forall in Hwin.
  destruct (Hwin pt) as [Hs1 Hw]; [apply list_elem_of_lookup; eauto|].
  rewrite Hpc in Hs1, Hw.
  assert (Hjz : Z.to_nat (chunk tf - 1) = j) by lia.
  assert (Hn : FileChunker.number c = Z.of_nat j + 1).
  { assert (H : map (fun q => FileChunker.number (part_chunk q))
                    (parts (FileChunker.new memory) content) !! j
                = Some (FileChunker.number c))
      by (rewrite list_lookup_fmap, Hpt; simpl; rewrite Hpc; reflexivity).
    rewrite Hnum in H. apply lookup_seqZ in H. lia. }
  exists c, i, l. unfold originalLine. rewrite Hjz, Hcj, Hf. simpl.
  repeat split; try assumption; try lia.
  - f_equal. lia.
  - fold (chunkLines c) in Hi. rewrite Hw in Hi.
    apply lookup_take_Some in Hi as [Hi _]. rewrite lookup_drop in Hi.
    rewrite <- Hi. f_equal. lia.
Qed.

Lemma merged_findings_keep_chunk_local_lines_witness :
  exists combined : combinedReview,
    reviewChunkedFile Sample.smallOptions "best-practices" Sample.threeLines
    = Some combined /\
    forall tf : taggedFinding,
      tf ∈ allFindings combined ->
      exists (c : FileChunker.chunk) (i : nat) (l : string),
        snd (FileChunker.createChunks (FileChunker.new Sample.smallOptions)
               Sample.threeLines) !! Z.to_nat (chunk tf - 1) = Some c /\
        FileChunker.number c = chunk tf /\
        chunkLines c !! i = Some l /\
        line (base tf) = Z.of_nat i + 1 /\
        code (base tf) = JS.trim l /\
        originalLine (snd (FileChunker.createChunks
                             (FileChunker.new Sample.smallOptions)
                             Sample.threeLines)) tf
        = Some (FileChunker.startLine c + Z.of_nat i) /\
        JS.split Sample.threeLines
          !! Z.to_nat (FileChunker.startLine c + Z.of_nat i - 1) = Some l.
Proof.
  apply (merged_findings_keep_chunk_local_lines Sample.smallOptions "best-practices"
           Sample.threeLines bestPractices).
  reflexivity.
Defined.

(** C2, as stated, fails: on the three-line sample the finding of the
    second chunk is recorded at line 1, the position of the flagged text
    in that chunk, while it is line 2 of the original file. *)
Lemma merged_finding_left_chunk_local :
  exists (combined : combinedReview) (tf : taggedFinding),
    reviewChunkedFile Sample.smallOptions "best-practices" Sample.threeLines
    = Some combined /\
    allFindings combined !! 2%nat = Some tf /\
    chunk tf = 2 /\
    line (base tf) = 1 /\
    originalLine (snd (FileChunker.createChunks Sample.small Sample.threeLines)) tf
    = Some 2 /\
    JS.split Sample.threeLines !! 1%nat = Some (code (base tf)).
Proof.
  do 2 eexists. split; [vm_compute; reflexivity|].
  split; [reflexivity|]. repeat split; vm_compute; reflexivity.
Qed.

(** C7, as the code has it — order of the merge: the aggregated
    findings are the per-chunk findings of [analyzeCode] in chunk order;
    of two adjacent findings, the later one comes from a later chunk, or
    from the same chunk at the same or a later chunk-local line.
    Severity plays no part. *)
Theorem merged_findings_in_chunk_then_line_order
        (memory : FileChunker.options) (template content : string)
        (pats : list pattern) :
  activePatterns template = Some pats ->
  let cs := snd (FileChunker.createChunks (FileChunker.new memory) content) in
  exists combined : combinedReview,
    reviewChunkedFile memory template content = Some combined /\
    map base (allFindings combined)
    = concat (map (fun c => scanLines pats 0 (chunkLines c) []) cs) /\
    adjacent byChunkThenLine (allFindings combined).
Proof.
  intros Hp cs. eexists. split; [apply (reviewChunkedFile_some _ _ _ _ Hp)|].
  fold cs. split.
  - rewrite combineReviews_base, map_map. reflexivity.
  - apply StronglySorted_adjacent. unfold combineReviews.
    apply mergeLoop_sorted; simpl; try constructor.
    apply chunkReview_sorted.
Qed.

Lemma merged_findings_in_chunk_then_line_order_witness :
  exists combined : combinedReview,
    reviewChunkedFile Sample.smallOptions "best-practices" Sample.threeLines
    = Some combined /\
    map base (allFindings combined)
    = concat (map (fun c => scanLines bestPractices 0 (chunkLines c) [])
                  (snd (FileChunker.createChunks
                          (FileChunker.new Sample.smallOptions)
                          Sample.threeLines))) /\
    adjacent byChunkThenLine (allFindings combined).
Proof.
  apply (merged_findings_in_chunk_then_line_order Sample.smallOptions
           "best-practices" Sample.threeLines bestPractices).
  reflexivity.
Defined.

(** C7, as stated, fails: on the three-line sample the first aggregated
    finding has severity [info] and the second has severity [low]. *)
Lemma info_finding_precedes_low_finding :
  exists (combined : combinedReview) (a b : taggedFinding),
    reviewChunkedFile Sample.smallOptions "best-practices" Sample.threeLines
    = Some combined /\
    allFindings combined !! 0%nat = Some a /\
    allFindings combined !! 1%nat = Some b /\
    severity (base a) = info /\ severity (base b) = low /\
    ~ bySeverityThenLine a b /\
    ~ adjacent bySeverityThenLine (allFindings combined).
Proof.
  do 3 eexists. split; [vm_compute; reflexivity|].
  split; [reflexivity|]. split; [reflexivity|].
  split; [reflexivity|]. split; [reflexivity|].
  assert (H : forall a b : taggedFinding,
             severity (base a) = info -> severity (base b) = low ->
             ~ bySeverityThenLine a b).
  { intros a b Ha Hb [H _]. rewrite Ha, Hb in H. simpl in H. lia. }
  split.
  - apply H; reflexivity.
  - intros Hadj. pose proof (Hadj 0%nat _ _ eq_refl eq_refl) as Hab.
    revert Hab. apply H; reflexivity.
Qed.

Lemma window_lines (this : FileChunker.chunker) (ps : list part) :
  Forall (part_ok this) ps ->
  sumZ (map (fun p => Z.of_nat (length (chunkLines (part_chunk p)))) ps)
  = Z.of_nat (length (concat (map newLines ps)))
    + Z.of_nat (length (concat (map overlapSlice ps))).
Proof.
  induction 1 as [|p ps Hp Hps IH]; simpl; [reflexivity|].
  destruct Hp as (Hl & _). rewrite IH, Hl, !length_app. lia.
Qed.

(** C9, as the code has it — metrics: each of the five aggregated
    metrics is the sum, over the chunks, of that metric computed by
    [calculateMetrics] on the whole content of the chunk, overlap
    included; so the aggregated line count is the line count of the
    original text plus the number of overlap lines. *)
Theorem metrics_sum_over_chunk_contents
        (memory : FileChunker.options) (template content : string)
        (pats : list pattern) :
  activePatterns template = Some pats ->
  let this := FileChunker.new memory in
  let per := map (fun c => calculateMetrics (FileChunker.content c))
                 (snd (FileChunker.createChunks this content)) in
  exists combined : combinedReview,
    reviewChunkedFile memory template content = Some combined /\
    totalLines (allMetrics combined) = sumZ (map totalLines per) /\
    codeLines (allMetrics combined) = sumZ (map codeLines per) /\
    commentLines (allMetrics combined) = sumZ (map commentLines per) /\
    complexity (allMetrics combined) = sumZ (map complexity per) /\
    tokens (allMetrics combined) = sumZ (map tokens per) /\
    totalLines (allMetrics combined)
    = Z.of_nat (length (JS.split content))
      + Z.of_nat (length (concat (map overlapSlice (parts this content)))).
Proof.
  intros Hp this per. eexists.
  split; [apply (reviewChunkedFile_some _ _ _ _ Hp)|].
  fold this. unfold combineReviews.
  assert (Hfield : forall field : metrics_t -> Z,
             (forall a b, field (addMetrics a b) = field a + field b) ->
             field zeroMetrics = 0 ->
             field (allMetrics
                      (mergeLoop 0
                         (map (chunkReview pats)
                              (snd (FileChunker.createChunks this content)))
                         {| totalChunks :=
                              Z.of_nat (length (map (chunkReview pats)
                                (snd (FileChunker.createChunks this content))));
                            allFindings := [];
                            allMetrics := zeroMetrics |}))
             = sumZ (map field per)).
  { intros field Hadd Hzero. rewrite mergeLoop_metrics by assumption.
    simpl. rewrite Hzero. unfold per. rewrite !map_map. reflexivity. }
  assert (Htotal : totalLines (allMetrics _) = sumZ (map totalLines per))
    by (apply Hfield; reflexivity).
  repeat split; try (apply Hfield; reflexivity).
  rewrite Htotal.
  destruct (createChunks_structure this content) as (Hok & _ & Hcat & _).
  rewrite <- Hcat, <- (window_lines this _ Hok).
  unfold per, parts.
  rewrite <- (annotate_chunks this None (snd (FileChunker.createChunks this content))) at 1.
  rewrite !map_map. reflexivity.
Qed.

Lemma metrics_sum_over_chunk_contents_witness :
  let this := FileChunker.new Sample.smallOptions in
  let per := map (fun c => calculateMetrics (FileChunker.content c))
                 (snd (FileChunker.createChunks this Sample.threeLines)) in
  exists combined : combinedReview,
    reviewChunkedFile Sample.smallOptions "performance" Sample.threeLines
    = Some combined /\
    totalLines (allMetrics combined) = sumZ (map totalLines per) /\
    codeLines (allMetrics combined) = sumZ (map codeLines per) /\
    commentLines (allMetrics combined) = sumZ (map commentLines per) /\
    complexity (allMetrics combined) = sumZ (map complexity per) /\
    tokens (allMetrics combined) = sumZ (map tokens per) /\
    totalLines (allMetrics combined)
    = Z.of_nat (length (JS.split Sample.threeLines))
      + Z.of_nat (length (concat (map overlapSlice
                                      (parts this Sample.threeLines)))).
Proof.
  apply (metrics_sum_over_chunk_contents Sample.smallOptions "performance"
           Sample.threeLines performance).
  reflexivity.
Defined.

(** C9, as stated, fails: the three-line sample aggregates to 4 lines
    and 14 tokens over its two chunks, while the text itself has 3
    lines and 10 tokens; the overlapped second line is counted twice. *)
Lemma overlap_lines_counted_twice :
  exists combined : combinedReview,
    reviewChunkedFile Sample.smallOptions "best-practices" Sample.threeLines
    = Some combined /\
    totalLines (allMetrics combined) = 4 /\
    totalLines (calculateMetrics Sample.threeLines) = 3 /\
    tokens (allMetrics combined) = 14 /\
    tokens (calculateMetrics Sample.threeLines) = 10 /\
    allMetrics combined <> calculateMetrics Sample.threeLines.
Proof.
  eexists. split; [vm_compute; reflexivity|].
  repeat split; try (vm_compute; reflexivity).
  vm_compute. discriminate.
Qed.

End ReviewerClaims.

(** * Further properties of the chunker *)

Section ChunkerMore.

Import FileChunker View Structure.

Lemma length_append (a b : string) :
  String.length (a ++ b) = (String.length a + String.length b)%nat.
Proof. induction a as [|c a IH]; simpl; [reflexivity|]. rewrite IH. reflexivity. Qed.

(** X1 — [estimateTokens] grows with the text, vanishes on the empty string
    only, never exceeds the sum of the estimates of two halves, and
    passes an integer threshold exactly when the length passes four
    times that threshold. *)
Theorem estimateTokens_monotone_subadditive (a b : string) (m : Z) :
  estimateTokens a <= estimateTokens (a ++ b) /\
  estimateTokens (a ++ b) <= estimateTokens a + estimateTokens b /\
  (estimateTokens a = 0 <-> a = EmptyString) /\
  (m < estimateTokens a <-> 4 * m < Z.of_nat (String.length a)).
Proof.
  rewrite !estimateTokens_eq, length_append, Nat2Z.inj_add.
  repeat split.
  - Z.div_mod_to_equations. lia.
  - Z.div_mod_to_equations. lia.
  - intros H. destruct a; [reflexivity|]. simpl String.length in H.
    revert H. Z.div_mod_to_equations. lia.
  - intros ->. reflexivity.
  - Z.div_mod_to_equations. lia.
  - Z.div_mod_to_equations. lia.
Qed.

Lemma overlapLoop_reaches (this : chunker) (pending acc : list string) (t : Z) :
  t = sumTokens acc ->
  overlapLoop this pending acc t = rev pending ++ acc \/
  this_overlap this <= sumTokens (overlapLoop this pending acc t).
Proof.
  revert acc t. induction pending as [|l pending IH]; intros acc t Ht; simpl.
  - left. reflexivity.
  - destruct (t <? this_overlap this) eqn:E.
    + destruct (IH (l :: acc) (t + estimateTokens l)) as [H|H].
      * simpl. lia.
      * left. rewrite H, <- app_assoc. reflexivity.
      * right. assumption.
    + right. apply Z.ltb_ge in E. lia.
Qed.

(** X2 — [getOverlapLines] returns a suffix of the chunk that reaches the
    overlap budget unless the whole chunk falls short of it, and nothing
    when the budget is not positive. *)
Theorem getOverlapLines_reaches_budget (this : chunker) (chunk : list string) :
  getOverlapLines this chunk `suffix_of` chunk /\
  (getOverlapLines this chunk = chunk \/
   this_overlap this <= sumTokens (getOverlapLines this chunk)) /\
  (this_overlap this <= 0 -> getOverlapLines this chunk = []).
Proof.
  split; [apply getOverlapLines_suffix|]. split.
  - unfold getOverlapLines.
    destruct (overlapLoop_reaches this (rev chunk) [] 0 eq_refl) as [H|H].
    + left. rewrite H, app_nil_r, rev_involutive. reflexivity.
    + right. assumption.
  - intros H. unfold getOverlapLines. destruct (rev chunk) as [|l p]; simpl;
      [reflexivity|].
    destruct (0 <? this_overlap this) eqn:E; [|reflexivity].
    apply Z.ltb_lt in E. lia.
Qed.

(** The loop closes no chunk as long as the running total stays within
    the budget. *)
Lemma loop_within_budget (this : chunker) (rest done : list string) (i : nat) :
  sumTokens done + sumTokens rest <= this_maxTokens this ->
  loop this i rest
    {| st_heap := [done]; chunks := []; currentChunk := 0%nat;
       currentTokens := sumTokens done; chunkNumber := 1 |}
  = {| st_heap := [done ++ rest]; chunks := []; currentChunk := 0%nat;
       currentTokens := sumTokens (done ++ rest); chunkNumber := 1 |}.
Proof.
  revert done i. induction rest as [|l rest IH]; intros done i H; simpl.
  - rewrite app_nil_r. reflexivity.
  - simpl in H. pose proof (sumTokens_nonneg rest) as Hr.
    unfold body. simpl.
    assert (E : (sumTokens done + estimateTokens l >? this_maxTokens this) = false)
      by (rewrite Z.gtb_ltb; apply Z.ltb_ge; lia).
    rewrite E. simpl. change (deref [done] 0) with done.
    replace (sumTokens done + estimateTokens l) with (sumTokens (done ++ [l]))
      by (rewrite sumTokens_app; simpl; lia).
    rewrite (IH (done ++ [l]) (S i)) by (rewrite sumTokens_app; simpl; lia).
    rewrite <- app_assoc. reflexivity.
Qed.

Lemma createChunks_whole (this : chunker) (content : string) :
  sumTokens (JS.split content) <= this_maxTokens this \/
  length (JS.split content) = 1%nat ->
  snd (createChunks this content) =
  [{| number := 1; content := content; startLine := 1;
      endLine := Z.of_nat (length (JS.split content));
      tokens := sumTokens (JS.split content);
      overlap := 1%nat |}].
Proof.
  set (lines := JS.split content). intros [H|H].
  - unfold createChunks. fold lines. unfold init.
    change 0 with (sumTokens []) at 1.
    rewrite (loop_within_budget this lines [] 0) by (simpl; lia).
    unfold finish. cbn [st_heap currentChunk chunks currentTokens chunkNumber].
    change (deref [[] ++ lines] 0) with lines.
    assert (Hlen : (0 <? length lines)%nat = true).
    { apply Nat.ltb_lt. pose proof (split_not_nil content) as Hne.
      fold lines in Hne. destruct lines; [congruence|simpl; lia]. }
    rewrite Hlen. cbn [snd app length]. unfold lines at 1.
    rewrite join_split. do 2 f_equal. lia.
  - unfold createChunks. fold lines.
    destruct lines as [|l [|l' ls]] eqn:El; simpl in H; try lia.
    simpl. unfold body. simpl. rewrite andb_false_r. simpl.
    unfold finish. simpl.
    assert (Hc : content = l).
    { rewrite <- (join_split content). fold lines. rewrite El. reflexivity. }
    rewrite Hc. do 2 f_equal; simpl; lia.
Qed.

(** X3 — Exactly when the per-line estimates of the text sum to at most
    [maxTokens], or the text is a single line, [createChunks] returns
    one chunk: the whole text, lines 1 to the last, with that sum as
    its token count. *)
Theorem single_chunk_iff_fits (this : chunker) (content : string) :
  let lines := JS.split content in
  (sumTokens lines <= this_maxTokens this \/ length lines = 1%nat) <->
  snd (createChunks this content) =
  [{| number := 1; content := content; startLine := 1;
      endLine := Z.of_nat (length lines); tokens := sumTokens lines;
      overlap := 1%nat |}].
Proof.
  intros lines. split; [apply createChunks_whole|].
  intros Hone.
  destruct (createChunks_structure this content) as (Hok & _ & Hcat & _).
  unfold parts in Hok, Hcat. rewrite Hone in Hok, Hcat. simpl in Hok, Hcat.
  rewrite app_nil_r in Hcat. fold lines in Hcat.
  inversion Hok as [|? ? (_ & _ & _ & Ht & Hb) _]; subst.
  simpl in Ht, Hb. rewrite Hcat in Hb.
  destruct Hb as [Hb|Hb]; [left|right]; assumption.
Qed.

End ChunkerMore.

Section EstimatorUse.

Import FileChunker View Structure.

Lemma length_split (s : string) :
  Z.of_nat (String.length s) + 1
  = fold_right (fun l acc => Z.of_nat (String.length l) + 1 + acc) 0 (JS.split s).
Proof.
  induction s as [|c s IH]; [reflexivity|].
  cbn [JS.split String.length]. destruct (Ascii.eqb c JS.newline).
  - cbn [fold_right String.length]. lia.
  - pose proof (split_not_nil s) as Hne.
    destruct (JS.split s) as [|l ls]; [congruence|].
    cbn [fold_right String.length] in *. lia.
Qed.

Lemma sumTokens_lengths (ls : list string) :
  let units := fold_right (fun l acc => Z.of_nat (String.length l) + 1 + acc) 0 ls in
  units <= 4 * sumTokens ls + Z.of_nat (length ls) /\
  4 * sumTokens ls <= units + 2 * Z.of_nat (length ls).
Proof.
  induction ls as [|l ls IH]; [simpl; lia|].
  unfold sumTokens in *. cbn [fold_right length] in *.
  pose proof (estimateTokens_eq l) as El. rewrite El.
  rewrite Nat2Z.inj_succ.
  destruct IH as [IH1 IH2].
  split; Z.div_mod_to_equations; lia.
Qed.

(** C10, as the code has it — one estimator, two counts: the chunker's
    and the reviewer's [estimateTokens] are the same function, the
    ceiling of a quarter of the length.  The chunking decision and the
    chunker's accounting apply it to different texts: [reviewFile] takes
    the chunked path exactly when the estimate [E] of the whole text
    exceeds [maxTokensPerChunk], and [createChunks] returns a single
    chunk exactly when the sum [S] of the per-line estimates is at most
    [maxTokens] or the text is one line.  For a text of [n] lines the
    two counts are only tied by [4E <= 4S + n + 2] and
    [4S <= 4E + 2n + 1]. *)
Theorem estimators_agree (s : string) :
  let E := CodeReviewer.estimateTokens s in
  let S := sumTokens (JS.split s) in
  let n := Z.of_nat (length (JS.split s)) in
  FileChunker.estimateTokens s = CodeReviewer.estimateTokens s /\
  4 * (E - 1) < Z.of_nat (String.length s) <= 4 * E /\
  (forall (memory : Flow.memoryConfig) (template : string) (out : Flow.reviewed),
     Flow.reviewFile memory template s = Some out ->
     ((exists c, out = Flow.InChunks c) <->
      exists m, Flow.maxTokensPerChunk memory = Some m /\ m < E)) /\
  (forall this : chunker,
     length (snd (createChunks this s)) = 1%nat <->
     S <= this_maxTokens this \/ n = 1) /\
  4 * E <= 4 * S + n + 2 /\
  4 * S <= 4 * E + 2 * n + 1.
Proof.
  intros E S n.
  assert (HE : E = (Z.of_nat (String.length s) + 3) / 4)
    by (unfold E, CodeReviewer.estimateTokens; apply ceil_quarter).
  split; [reflexivity|].
  split; [rewrite HE; Z.div_mod_to_equations; lia|].
  split.
  { intros memory template out Hout. unfold Flow.reviewFile in Hout.
    fold E in Hout.
    destruct (Flow.maxTokensPerChunk memory) as [m|].
    - destruct (E >? m) eqn:Egt.
      + destruct (CodeReviewer.reviewChunkedFile _ _ _) as [c|];
          [|discriminate]. inversion Hout; subst out.
        split; [|eauto]. intros _. exists m. split; [reflexivity|].
        rewrite Z.gtb_ltb, Z.ltb_lt in Egt. assumption.
      + destruct (CodeReviewer.performReview _ _ _) as [r|];
          [|discriminate]. inversion Hout; subst out.
        split; [intros [c Hc]; discriminate|].
        intros (m' & Hm' & Hlt). inversion Hm'; subst m'.
        rewrite Z.gtb_ltb, Z.ltb_ge in Egt. lia.
    - destruct (CodeReviewer.performReview _ _ _) as [r|];
        [|discriminate]. inversion Hout; subst out.
      split; [intros [c Hc]; discriminate|].
      intros (m' & Hm' & _). discriminate. }
  split.
  { intros this. split.
    - intros Hlen.
      destruct (createChunks_structure this s) as (Hok & _ & Hcat & _).
      unfold parts in Hok, Hcat.
      destruct (snd (createChunks this s)) as [|c [|d cs]];
        try discriminate Hlen.
      simpl in Hok, Hcat. rewrite app_nil_r in Hcat.
      inversion Hok as [|? ? (_ & _ & _ & Ht & Hb) _]; subst.
      simpl in Ht, Hb. rewrite Hcat in Ht, Hb.
      change (sliceTokens []) with 0 in Ht.
      destruct Hb as [Hb|Hb]; [left; unfold S; lia|right].
      unfold n. rewrite Hb. reflexivity.
    - intros H. rewrite createChunks_whole; [reflexivity|].
      destruct H as [H|H]; [left; exact H|right]. unfold n in H. lia. }
  pose proof (length_split s) as Hlen.
  destruct (sumTokens_lengths (JS.split s)) as [H1 H2].
  fold S n in H1, H2. rewrite <- Hlen in H1, H2.
  rewrite HE. split; Z.div_mod_to_equations; lia.
Qed.

(** C10, as stated, fails in its conclusion.  On five lines of one code
    unit each, with 3 as both budgets, the decision counts 3 tokens for
    the whole text, which is not above the budget, so [reviewFile]
    reviews the text in one piece; the chunker counts 5 tokens for the
    same text, one per line, and splits it in two chunks. *)
Lemma decision_and_accounting_disagree :
  FileChunker.estimateTokens Sample.fiveShortLines
  = CodeReviewer.estimateTokens Sample.fiveShortLines /\
  CodeReviewer.estimateTokens Sample.fiveShortLines = 3 /\
  sumTokens (JS.split Sample.fiveShortLines) = 5 /\
  (exists r : CodeReviewer.review,
     Flow.reviewFile {| Flow.maxTokensPerChunk := Some 3;
                        Flow.chunkerOptions := Sample.budget3 |}
                     "best-practices" Sample.fiveShortLines
     = Some (Flow.Whole r)) /\
  map (fun c => (startLine c, endLine c, tokens c))
      (snd (createChunks (new Sample.budget3) Sample.fiveShortLines))
  = [(1, 3, 3); (3, 5, 3)].
Proof.
  split; [reflexivity|]. split; [reflexivity|]. split; [reflexivity|].
  split; [eexists; vm_compute; reflexivity|].
  vm_compute. reflexivity.
Qed.

End EstimatorUse.

Section ChunkLayout.

Import FileChunker View Structure.

Variable this : chunker.

Lemma layout_spans (ps : list part) :
  forall n k : Z,
  0 <= n ->
  Forall (part_ok this) ps ->
  layout n k ps ->
  Forall (fun p =>
            n < endLine (part_chunk p)
              <= n + Z.of_nat (length (concat (map newLines ps))) /\
            endLine (part_chunk p) - startLine (part_chunk p) + 1
            = Z.of_nat (length (chunkLines (part_chunk p)))) ps.
Proof.
  induction ps as [|p ps IH]; intros n k Hn Hok Hlay; [constructor|].
  inversion Hok as [|? ? Hp Hps]; subst.
  destruct Hlay as (Hs & He & _ & Hlay). destruct Hp as (Hl & Hne & _).
  assert (Hpos : (0 < length (newLines p))%nat)
    by (destruct (newLines p); [congruence|simpl; lia]).
  simpl. rewrite length_app. constructor.
  - rewrite Hl, length_app. repeat split; lia.
  - specialize (IH (n + Z.of_nat (length (newLines p))) (k + 1) ltac:(lia) Hps Hlay).
    eapply Forall_impl; [exact IH|]. simpl. intros q (H2 & H3).
    repeat split; lia.
Qed.

Lemma reassembleFrom_new (cs : list chunk) :
  forall (prev : option chunk) (n k : Z),
  Forall (part_ok this) (annotate this prev cs) ->
  layout n k (annotate this prev cs) ->
  Saved.reassembleFrom n cs = concat (map newLines (annotate this prev cs)).
Proof.
  induction cs as [|c cs IH]; intros prev n k Hok Hlay; simpl; [reflexivity|].
  simpl in Hok, Hlay. inversion Hok as [|? ? Hp Hps]; subst.
  destruct Hlay as (Hs & He & _ & Hlay). destruct Hp as (Hl & _).
  simpl in Hs, He, Hl.
  rewrite Hs.
  replace (Z.to_nat (n - (n - Z.of_nat (length (sliceAfter this prev)) + 1) + 1))
    with (length (sliceAfter this prev)) by lia.
  f_equal. rewrite He.
  apply (IH (Some c) _ (k + 1) Hps Hlay).
Qed.

Lemma layout_last (ps : list part) (p : part) :
  forall n k : Z,
  layout n k (ps ++ [p]) ->
  endLine (part_chunk p)
  = n + Z.of_nat (length (concat (map newLines (ps ++ [p])))).
Proof.
  induction ps as [|q ps IH]; intros n k Hlay; simpl in *.
  - destruct Hlay as (_ & He & _). rewrite app_nil_r. assumption.
  - destruct Hlay as (_ & _ & _ & Hlay). rewrite (IH _ _ Hlay), length_app. lia.
Qed.

Lemma layout_adjacent (ps : list part) :
  forall (n k : Z) (i : nat) (p q : part),
  layout n k ps ->
  ps !! i = Some p -> ps !! S i = Some q ->
  startLine (part_chunk q)
  = endLine (part_chunk p) - Z.of_nat (length (overlapSlice q)) + 1 /\
  endLine (part_chunk q)
  = endLine (part_chunk p) + Z.of_nat (length (newLines q)).
Proof.
  induction ps as [|x ps IH]; intros n k i p q Hlay Hp Hq; [discriminate|].
  destruct Hlay as (_ & He & _ & Hlay).
  destruct i as [|i]; simpl in Hp, Hq.
  - inversion Hp; subst x. destruct ps as [|y ps]; [discriminate|].
    simpl in Hq. inversion Hq; subst y.
    destruct Hlay as (Hs' & He' & _). rewrite He. split; assumption.
  - apply (IH _ _ i p q Hlay Hp Hq).
Qed.

Lemma length_concat_nonempty {A : Type} (ls : list (list A)) :
  Forall (fun l => l <> []) ls -> (length ls <= length (concat ls))%nat.
Proof.
  induction 1 as [|l ls Hl Hls IH]; simpl; [lia|].
  rewrite length_app. destruct l; [congruence|simpl; lia].
Qed.

End ChunkLayout.

Section ChunkerLayoutFacts.

Import FileChunker View Structure.

(** X4 — In the list [createChunks] returns, chunks are numbered 1, 2, ...;
    each has [1 <= startLine <= endLine <= number of lines], and its
    content is the lines [startLine .. endLine] of the text joined by
    newlines. *)
Theorem chunk_metadata_describes_content (this : chunker) (content : string) :
  let cs := snd (createChunks this content) in
  let lines := JS.split content in
  map number cs = seqZ 1 (Z.of_nat (length cs)) /\
  Forall (fun c =>
            1 <= startLine c <= endLine c /\
            endLine c <= Z.of_nat (length lines) /\
            FileChunker.content c =
            JS.join (take (Z.to_nat (endLine c - startLine c + 1))
                          (drop (Z.to_nat (startLine c - 1)) lines))) cs.
Proof.
  intros cs lines.
  destruct (createChunks_structure this content) as (Hok & Hlay & Hcat & _).
  destruct (coverage this content) as (_ & _ & _ & Hnum).
  pose proof (parts_window this content) as Hwin.
  pose proof (layout_spans this _ 0 1 ltac:(lia) Hok Hlay) as Hsp.
  rewrite Hcat in Hsp. fold lines in Hsp, Hwin.
  assert (Hcs : cs = map part_chunk (parts this content))
    by (unfold parts; rewrite annotate_chunks; reflexivity).
  split.
  - rewrite Hcs, map_map, length_map. exact Hnum.
  - rewrite Hcs. apply Forall_map.
    rewrite Forall_forall in Hwin, Hsp. apply Forall_forall. intros p Hp.
    destruct (Hwin p Hp) as [H1 Hw]. destruct (Hsp p Hp) as ([H2 H3] & H4).
    assert (Hlen : (0 < length (chunkLines (part_chunk p)))%nat).
    { unfold chunkLines.
      pose proof (split_not_nil (FileChunker.content (part_chunk p))) as Hne.
      destruct (JS.split (FileChunker.content (part_chunk p)));
        [congruence|simpl; lia]. }
    repeat split; try lia.
    rewrite H4, Nat2Z.id, <- Hw. unfold chunkLines. rewrite join_split. reflexivity.
Qed.

(** X5 — The chunks of [createChunks] form a chain: there is at least one
    chunk and at most one per line; the first starts at line 1, the last
    ends at the last line; from one chunk to the next the end line
    grows, and the start line does not go back nor leave a gap after
    the previous end line. *)
Theorem chunk_ranges_chain (this : chunker) (content : string) :
  let cs := snd (createChunks this content) in
  let n := length (JS.split content) in
  (1 <= length cs <= n)%nat /\
  (exists c, head cs = Some c /\ startLine c = 1) /\
  (exists c, last cs = Some c /\ endLine c = Z.of_nat n) /\
  Report.adjacent (fun c d => endLine c < endLine d /\
                              startLine c <= startLine d <= endLine c + 1) cs.
Proof.
  intros cs n.
  destruct (createChunks_structure this content) as (Hok & Hlay & Hcat & _ & _ & Hne).
  assert (Hcs : cs = map part_chunk (parts this content))
    by (unfold parts; rewrite annotate_chunks; reflexivity).
  fold cs in Hne. split; [|split; [|split]].
  - split; [destruct cs; [congruence|simpl; lia]|].
    rewrite Hcs, length_map. unfold n. rewrite <- Hcat.
    etransitivity; [|apply length_concat_nonempty].
    + rewrite length_map. reflexivity.
    + apply Forall_map. eapply Forall_impl; [exact Hok|].
      intros p (_ & H & _). exact H.
  - unfold parts in Hlay. fold cs in Hlay.
    destruct cs as [|c cs']; [congruence|]. exists c. split; [reflexivity|].
    simpl in Hlay. destruct Hlay as (Hs & _). simpl in Hs. lia.
  - assert (Hps : parts this content <> [])
      by (intros E; rewrite E in Hcs; simpl in Hcs; congruence).
    destruct (exists_last Hps) as (ps0 & p0 & Eps).
    rewrite Eps in Hlay, Hcat. exists (part_chunk p0). split.
    + rewrite Hcs, Eps, map_app. simpl. apply last_snoc.
    + rewrite (layout_last _ _ _ _ Hlay), Hcat. unfold n. lia.
  - intros i c d Hc Hd.
    destruct (chunk_lookup_part this content i c Hc) as (p & Hp & <-).
    destruct (chunk_lookup_part this content (S i) d Hd) as (q & Hq & <-).
    destruct (layout_adjacent _ _ _ i p q Hlay Hp Hq) as [Hs He].
    pose proof (annotate_next this None _ i p q Hp Hq) as Hslice.
    rewrite Forall_forall in Hok.
    assert (Hqok : part_ok this q) by (apply Hok, list_elem_of_lookup; eauto).
    destruct Hqok as (_ & Hqn & _).
    pose proof (layout_spans this _ 0 1 ltac:(lia)
                  (proj2 (Forall_forall _ _) Hok) Hlay) as Hsp.
    rewrite Forall_forall in Hsp.
    destruct (Hsp p) as (_ & Hspan); [apply list_elem_of_lookup; eauto|].
    assert (Hle : (length (overlapSlice q) <= length (chunkLines (part_chunk p)))%nat).
    { rewrite Hslice. apply suffix_length, getOverlapLines_suffix. }
    assert (Hpos : (0 < length (newLines q))%nat)
      by (destruct (newLines q); [congruence|simpl; lia]).
    lia.
Qed.

(** X6 — Round trip: joining, for each chunk in turn, the lines of its
    content that lie past the previous chunk's end line gives back the
    text, for any budgets. *)
Theorem reassemble_createChunks (this : chunker) (content : string) :
  Saved.reassemble (snd (createChunks this content)) = content.
Proof.
  destruct (createChunks_structure this content) as (Hok & Hlay & Hcat & _).
  unfold Saved.reassemble.
  rewrite (reassembleFrom_new this _ None 0 1 Hok Hlay).
  fold (parts this content). rewrite Hcat. apply join_split.
Qed.

End ChunkerLayoutFacts.

(** * Further properties of the reviewer *)

Section AnalysisFacts.

Import CodeReviewer Report View Structure.

Lemma matchLine_length (pats : list pattern) (index : nat) (l : string) :
  (length (matchLine pats index l) <= length pats)%nat.
Proof.
  unfold matchLine. induction pats as [|p pats IH]; simpl; [lia|].
  rewrite length_app. destruct (Regex.test (regex p) l); simpl; lia.
Qed.

Lemma scanLines_length (pats : list pattern) (lines : list string) :
  forall (index : nat) (acc : list finding),
  (length (scanLines pats index lines acc)
   <= length acc + length lines * length pats)%nat.
Proof.
  induction lines as [|l lines IH]; intros index acc; simpl; [lia|].
  etransitivity; [apply IH|]. rewrite length_app.
  pose proof (matchLine_length pats index l). lia.
Qed.

(** X10 — [analyzeCode] reports a finding exactly for each pair of a line and
    an active rule whose pattern matches the line, at the 1-based index
    of the line, with the rule's severity and message and the trimmed
    line as code; the findings come in line order and there are at most
    (lines x rules) of them. *)
Theorem analyzeCode_reports_exactly_the_matches
        (content template : string) (pats : list pattern) :
  activePatterns template = Some pats ->
  exists fs : list finding,
    analyzeCode content template = Some fs /\
    (forall f : finding,
        f ∈ fs <->
        exists (i : nat) (l : string) (p : pattern),
          JS.split content !! i = Some l /\ p ∈ pats /\
          Regex.test (regex p) l = true /\
          f = {| line := Z.of_nat i + 1; severity := pat_severity p;
                 message := pat_message p; code := JS.trim l |}) /\
    StronglySorted lineOrder fs /\
    (length fs <= length (JS.split content) * length pats)%nat.
Proof.
  intros Hp. unfold analyzeCode. rewrite Hp. eexists. split; [reflexivity|].
  split; [|split].
  - intros f. rewrite scanLines_elem. split.
    + intros [H|(i & l & Hi & Hf)]; [inversion H|].
      apply matchLine_elem in Hf as (p & H1 & H2 & H3). exists i, l, p. auto.
    + intros (i & l & p & Hi & H1 & H2 & H3). right. exists i, l.
      split; [assumption|]. apply matchLine_elem. exists p. auto.
  - apply scanLines_sorted; constructor.
  - apply (scanLines_length pats (JS.split content) 0 []).
Qed.

Lemma analyzeCode_reports_exactly_the_matches_witness :
  exists fs : list finding,
    analyzeCode Sample.threeLines "best-practices" = Some fs /\
    (forall f : finding,
        f ∈ fs <->
        exists (i : nat) (l : string) (p : pattern),
          JS.split Sample.threeLines !! i = Some l /\ p ∈ bestPractices /\
          Regex.test (regex p) l = true /\
          f = {| line := Z.of_nat i + 1; severity := pat_severity p;
                 message := pat_message p; code := JS.trim l |}) /\
    StronglySorted lineOrder fs /\
    (length fs <= length (JS.split Sample.threeLines) * length bestPractices)%nat.
Proof.
  apply (analyzeCode_reports_exactly_the_matches Sample.threeLines "best-practices"
           bestPractices).
  reflexivity.
Defined.

Lemma lowerChar_idempotent (c : ascii) :
  JS.lowerChar (JS.lowerChar c) = JS.lowerChar c.
Proof.
  destruct c as [[] [] [] [] [] [] [] []]; reflexivity.
Qed.

Lemma toLowerCase_idempotent (s : string) :
  JS.toLowerCase (JS.toLowerCase s) = JS.toLowerCase s.
Proof.
  induction s as [|c s IH]; simpl; [reflexivity|].
  rewrite lowerChar_idempotent, IH. reflexivity.
Qed.

(** X11 — Template names are read without regard to case; [analyzeCode] fails
    only for the names [constructor] and [__proto__] (in any case), and
    every name other than those two, [security] and [performance]
    selects the rules of [bestPractices]. *)
Theorem template_names_fold_case_and_fall_back (content template : string) :
  analyzeCode content (JS.toLowerCase template) = analyzeCode content template /\
  (analyzeCode content template = None <->
   JS.toLowerCase template = "constructor"%string \/
   JS.toLowerCase template = "__proto__"%string) /\
  (JS.toLowerCase template <> "security"%string ->
   JS.toLowerCase template <> "performance"%string ->
   JS.toLowerCase template <> "constructor"%string ->
   JS.toLowerCase template <> "__proto__"%string ->
   activePatterns template = Some bestPractices).
Proof.
  unfold analyzeCode, activePatterns. rewrite toLowerCase_idempotent.
  split; [reflexivity|].
  destruct (String.eqb_spec (JS.toLowerCase template) "security") as [E1|E1].
  { rewrite E1. simpl. split; [|congruence].
    split; [discriminate|intros [H|H]; discriminate]. }
  destruct (String.eqb_spec (JS.toLowerCase template) "performance") as [E2|E2].
  { rewrite E2. simpl. split; [|congruence].
    split; [discriminate|intros [H|H]; discriminate]. }
  destruct (String.eqb_spec (JS.toLowerCase template) "bestPractices") as [E3|E3].
  { rewrite E3. simpl. split; [|reflexivity].
    split; [discriminate|intros [H|H]; discriminate]. }
  destruct (String.eqb_spec (JS.toLowerCase template) "constructor") as [E4|E4].
  { simpl. split; [|congruence]. split; auto. }
  destruct (String.eqb_spec (JS.toLowerCase template) "__proto__") as [E5|E5].
  { simpl. split; [|congruence]. split; auto. }
  simpl. split; [|reflexivity].
  split; [discriminate|intros [H|H]; congruence].
Qed.

End AnalysisFacts.

Section ChunkedVersusWhole.

Import CodeReviewer Report View Structure.

Lemma chunk_window_lookup (this : FileChunker.chunker) (content : string)
      (j : nat) (c : FileChunker.chunk) :
  snd (FileChunker.createChunks this content) !! j = Some c ->
  1 <= FileChunker.startLine c /\
  FileChunker.endLine c - FileChunker.startLine c + 1
  = Z.of_nat (length (chunkLines c)) /\
  FileChunker.endLine c <= Z.of_nat (length (JS.split content)) /\
  forall i : nat,
    (i < length (chunkLines c))%nat ->
    chunkLines c !! i
    = JS.split content !! (Z.to_nat (FileChunker.startLine c - 1) + i)%nat.
Proof.
  intros Hc. destruct (chunk_lookup_part _ _ _ _ Hc) as (p & Hp & <-).
  destruct (createChunks_structure this content) as (Hok & Hlay & Hcat & _).
  pose proof (parts_window this content) as Hwin.
  pose proof (layout_spans this _ 0 1 ltac:(lia) Hok Hlay) as Hsp.
  rewrite Hcat in Hsp. rewrite Forall_forall in Hwin, Hsp.
  assert (Hin : p ∈ parts this content) by (apply list_elem_of_lookup; eauto).
  destruct (Hwin p Hin) as [H1 Hw]. destruct (Hsp p Hin) as ([H2 H3] & H4).
  repeat split; try assumption.
  intros i Hi. rewrite Hw at 1.
  rewrite lookup_take_lt by lia. apply lookup_drop.
Qed.

Lemma line_in_some_chunk (this : FileChunker.chunker) (content : string) (k : nat) :
  (k < length (JS.split content))%nat ->
  exists (j : nat) (c : FileChunker.chunk),
    snd (FileChunker.createChunks this content) !! j = Some c /\
    FileChunker.startLine c <= Z.of_nat k + 1 <= FileChunker.endLine c.
Proof.
  intros Hk.
  destruct (coverage this content) as (_ & _ & Hr & _).
  assert (Hin : (Z.of_nat k + 1) ∈ concat (map newRange (parts this content))).
  { rewrite Hr. apply elem_of_seqZ. lia. }
  apply list_elem_of_In, in_concat in Hin as (r & Hr' & Hkr).
  apply in_map_iff in Hr' as (p & <- & Hp).
  apply list_elem_of_In in Hkr, Hp.
  apply list_elem_of_lookup in Hp as (j & Hj).
  exists j, (part_chunk p). split.
  - unfold parts in Hj.
    rewrite <- (annotate_chunks this None (snd (FileChunker.createChunks this content))).
    rewrite list_lookup_fmap, Hj. reflexivity.
  - unfold newRange, newStart in Hkr. apply elem_of_seqZ in Hkr. lia.
Qed.

Lemma tagged_origin (pats : list pattern) (cs : list FileChunker.chunk)
      (tf : taggedFinding) :
  tf ∈ allFindings (combineReviews (map (chunkReview pats) cs)) <->
  exists (j : nat) (c : FileChunker.chunk) (i : nat) (l : string) (p : pattern),
    cs !! j = Some c /\ chunk tf = Z.of_nat j + 1 /\
    chunkLines c !! i = Some l /\ p ∈ pats /\
    Regex.test (regex p) l = true /\
    base tf = {| line := Z.of_nat i + 1; severity := pat_severity p;
                 message := pat_message p; code := JS.trim l |}.
Proof.
  unfold combineReviews. rewrite mergeLoop_elem. simpl. split.
  - intros [H|(j & r & Hj & Hc & Hf)]; [inversion H|].
    rewrite list_lookup_fmap in Hj.
    destruct (cs !! j) as [c|] eqn:Hcj; simpl in Hj; [|discriminate].
    inversion Hj; subst r; clear Hj. simpl in Hf.
    apply scanLines_elem in Hf as [Hf|(i & l & Hi & Hf)]; [inversion Hf|].
    apply matchLine_elem in Hf as (p & H1 & H2 & H3).
    simpl in Hc, H3. exists j, c, i, l, p. repeat split; assumption.
  - intros (j & c & i & l & p & Hcj & Hc & Hi & H1 & H2 & H3).
    right. exists j, (chunkReview pats c).
    rewrite list_lookup_fmap, Hcj. simpl. repeat split; try assumption.
    apply scanLines_elem. right. exists i, l. split; [assumption|].
    apply matchLine_elem. exists p. auto.
Qed.

Lemma chunked_and_whole_findings
        (memory : FileChunker.options) (template content : string)
        (pats : list pattern) :
  activePatterns template = Some pats ->
  let cs := snd (FileChunker.createChunks (FileChunker.new memory) content) in
  exists (combined : combinedReview) (whole : list finding),
    reviewChunkedFile memory template content = Some combined /\
    analyzeCode content template = Some whole /\
    (forall tf : taggedFinding,
        tf ∈ allFindings combined ->
        exists f : finding, Flow.translate cs tf = Some f /\ f ∈ whole) /\
    (forall f : finding,
        f ∈ whole ->
        exists tf : taggedFinding,
          tf ∈ allFindings combined /\ Flow.translate cs tf = Some f).
Proof.
  intros Hp cs. do 2 eexists.
  split; [apply (reviewChunkedFile_some _ _ _ _ Hp)|].
  split; [unfold analyzeCode; rewrite Hp; reflexivity|].
  fold cs. split.
  - intros tf Htf.
    apply tagged_origin in Htf as (j & c & i & l & p & Hcj & Hc & Hi & H1 & H2 & H3).
    destruct (chunk_window_lookup _ _ _ _ Hcj) as (Hs & _ & _ & Hw).
    assert (Hlt : (i < length (chunkLines c))%nat) by (eapply lookup_lt_Some; eauto).
    rewrite (Hw i Hlt) in Hi.
    unfold Flow.translate, originalLine.
    replace (Z.to_nat (chunk tf - 1)) with j by lia. fold cs in Hcj. rewrite Hcj.
    eexists. split; [reflexivity|].
    apply scanLines_elem. right.
    exists (Z.to_nat (FileChunker.startLine c - 1) + i)%nat, l.
    split; [assumption|]. apply matchLine_elem. exists p.
    repeat split; try assumption. rewrite H3. simpl. f_equal. lia.
  - intros f Hf.
    apply scanLines_elem in Hf as [Hf|(k & l & Hk & Hf)]; [inversion Hf|].
    apply matchLine_elem in Hf as (p & H1 & H2 & ->). simpl.
    assert (Hlt : (k < length (JS.split content))%nat) by (eapply lookup_lt_Some; eauto).
    destruct (line_in_some_chunk (FileChunker.new memory) content k Hlt)
      as (j & c & Hcj & Hrange).
    destruct (chunk_window_lookup _ _ _ _ Hcj) as (Hs & Hspan & _ & Hw).
    set (i := (k - Z.to_nat (FileChunker.startLine c - 1))%nat).
    assert (Hi : (i < length (chunkLines c))%nat) by (unfold i; lia).
    assert (Hl : chunkLines c !! i = Some l).
    { rewrite (Hw i Hi). rewrite <- Hk. f_equal. unfold i. lia. }
    exists {| base := {| line := Z.of_nat i + 1; severity := pat_severity p;
                         message := pat_message p; code := JS.trim l |};
              chunk := Z.of_nat j + 1 |}.
    split.
    + apply tagged_origin. exists j, c, i, l, p. simpl.
      repeat split; try assumption; reflexivity.
    + unfold Flow.translate, originalLine. simpl.
      replace (Z.to_nat (Z.of_nat j + 1 - 1)) with j by lia.
      fold cs in Hcj. rewrite Hcj. simpl. do 2 f_equal. unfold i. lia.
Qed.


(** X12 — Chunking loses no finding and invents none: translated to original
    line numbers ([startLine + line - 1] of its chunk), every finding of
    the chunked review is a finding of [analyzeCode] on the whole text,
    and every finding of [analyzeCode] on the whole text is the
    translation of a finding of the chunked review. *)
Theorem chunked_review_finds_what_whole_review_finds
        (memory : FileChunker.options) (template content : string)
        (pats : list pattern) :
  activePatterns template = Some pats ->
  let cs := snd (FileChunker.createChunks (FileChunker.new memory) content) in
  exists (combined : combinedReview) (whole : list finding),
    reviewChunkedFile memory template content = Some combined /\
    analyzeCode content template = Some whole /\
    (forall tf : taggedFinding,
        tf ∈ allFindings combined ->
        exists f : finding, Flow.translate cs tf = Some f /\ f ∈ whole) /\
    (forall f : finding,
        f ∈ whole ->
        exists tf : taggedFinding,
          tf ∈ allFindings combined /\ Flow.translate cs tf = Some f).
Proof. apply chunked_and_whole_findings. Qed.

Lemma chunked_review_finds_what_whole_review_finds_witness :
  let cs := snd (FileChunker.createChunks (FileChunker.new Sample.smallOptions)
                   Sample.threeLines) in
  exists (combined : combinedReview) (whole : list finding),
    reviewChunkedFile Sample.smallOptions "best-practices" Sample.threeLines
    = Some combined /\
    analyzeCode Sample.threeLines "best-practices" = Some whole /\
    (forall tf : taggedFinding,
        tf ∈ allFindings combined ->
        exists f : finding, Flow.translate cs tf = Some f /\ f ∈ whole) /\
    (forall f : finding,
        f ∈ whole ->
        exists tf : taggedFinding,
          tf ∈ allFindings combined /\ Flow.translate cs tf = Some f).
Proof.
  apply (chunked_review_finds_what_whole_review_finds Sample.smallOptions
           "best-practices" Sample.threeLines bestPractices).
  reflexivity.
Defined.

End ChunkedVersusWhole.

Section MetricsAndSummary.

Import CodeReviewer Report Flow.

Lemma filter_length_le {A : Type} (f g : A -> bool) (l : list A) :
  (forall x, f x = true -> g x = true) ->
  (length (List.filter f l) <= length (List.filter g l))%nat.
Proof.
  intros H. induction l as [|x l IH]; simpl; [lia|].
  destruct (f x) eqn:Ef.
  - rewrite (H x Ef). simpl. lia.
  - destruct (g x); simpl; lia.
Qed.

Lemma filter_length_bound {A : Type} (f : A -> bool) (l : list A) :
  (length (List.filter f l) <= length l)%nat.
Proof.
  induction l as [|x l IH]; simpl; [lia|]. destruct (f x); simpl; lia.
Qed.

Lemma countFrom_nonneg (fuel : nat) (r : Regex.re) (s : string) :
  0 <= Regex.countFrom fuel r s.
Proof.
  revert s. induction fuel as [|fuel IH]; intros s; simpl; [lia|].
  destruct (Regex.exec r s) as [[start rest]|]; [|lia].
  destruct (String.length rest <? String.length start)%nat.
  - pose proof (IH rest). lia.
  - destruct start as [|c t]; [lia|]. pose proof (IH t). lia.
Qed.

Lemma fold_complexity_ge (content : string) (rs : list Regex.re) (c0 : Z) :
  c0 <= fold_left (fun complexity r => complexity + Regex.countMatches r content)
                  rs c0.
Proof.
  revert c0. induction rs as [|r rs IH]; intros c0; simpl; [lia|].
  etransitivity; [|apply IH].
  pose proof (countFrom_nonneg (S (String.length content)) r content).
  unfold Regex.countMatches. lia.
Qed.

(** X13 — The metrics of any text: at least one line; comment lines are also
    counted as code lines, which are among the lines; complexity is at
    least 1; the token estimate is not negative. *)
Theorem metrics_are_bounded (content : string) :
  let m := calculateMetrics content in
  1 <= totalLines m /\
  0 <= commentLines m <= codeLines m /\
  codeLines m <= totalLines m /\
  1 <= complexity m /\
  0 <= tokens m.
Proof.
  simpl. unfold count.
  pose proof (split_not_nil content) as Hne.
  repeat split.
  - destruct (JS.split content); [congruence|simpl; lia].
  - lia.
  - apply Nat2Z.inj_le, filter_length_le. intros l Hl.
    apply Nat.ltb_lt. apply orb_prop in Hl.
    destruct (JS.trim l); [destruct Hl; discriminate|simpl; lia].
  - apply Nat2Z.inj_le. apply filter_length_bound.
  - apply fold_complexity_ge.
  - exact (estimateTokens_nonneg content).
Qed.

Lemma mergeLoop_totalChunks (rs : list review) :
  forall (index : nat) (c0 : combinedReview),
  totalChunks (mergeLoop index rs c0) = totalChunks c0.
Proof.
  induction rs as [|r rs IH]; intros index c0; simpl; [reflexivity|].
  rewrite IH. reflexivity.
Qed.

Lemma length_concat_sum {A : Type} (ls : list (list A)) :
  length (concat ls) = sum_list (map (@length A) ls).
Proof.
  induction ls as [|l ls IH]; simpl; [reflexivity|].
  rewrite length_app, IH. reflexivity.
Qed.

(** X14 — [combineReviews] records the number of reviews as [totalChunks],
    keeps as many findings as the reviews hold together, and tags each
    with a chunk index between 1 and [totalChunks]. *)
Theorem merge_counts_and_tags (reviews : list review) :
  let combined := combineReviews reviews in
  totalChunks combined = Z.of_nat (length reviews) /\
  length (allFindings combined)
  = sum_list (map (fun r => length (findings r)) reviews) /\
  Forall (fun tf => 1 <= chunk tf <= totalChunks combined) (allFindings combined).
Proof.
  simpl.
  assert (Ht : totalChunks (combineReviews reviews) = Z.of_nat (length reviews))
    by (unfold combineReviews; rewrite mergeLoop_totalChunks; reflexivity).
  split; [assumption|]. split.
  - rewrite <- (length_map base), combineReviews_base, length_concat_sum, map_map.
    reflexivity.
  - apply Forall_forall. intros tf Htf. rewrite Ht.
    unfold combineReviews in Htf.
    apply mergeLoop_elem in Htf as [Htf|(j & r & Hj & Hc & _)]; [inversion Htf|].
    apply lookup_lt_Some in Hj. simpl in Hc. lia.
Qed.

Lemma countSeverities_fold (fs : list finding) :
  forall c0 : severityCounts,
  let c := fold_left (fun c f => bump (severity f) c) fs c0 in
  n_critical c = n_critical c0 + countOf critical fs /\
  n_high c = n_high c0 + countOf high fs /\
  n_medium c = n_medium c0 + countOf medium fs /\
  n_low c = n_low c0 + countOf low fs /\
  n_info c = n_info c0 + countOf info fs.
Proof.
  unfold countOf.
  induction fs as [|f fs IH]; intros c0; simpl.
  - repeat split; lia.
  - destruct (IH (bump (severity f) c0)) as (H1 & H2 & H3 & H4 & H5).
    rewrite H1, H2, H3, H4, H5. unfold hasSeverity.
    destruct (severity f); simpl; repeat split; lia.
Qed.

(** X15 — The counters behind the summary sentence: each holds the number of
    findings of its severity, and together they account for every
    finding. *)
Theorem summary_counts_each_severity (fs : list finding) :
  let c := countSeverities fs in
  n_critical c = countOf critical fs /\
  n_high c = countOf high fs /\
  n_medium c = countOf medium fs /\
  n_low c = countOf low fs /\
  n_info c = countOf info fs /\
  n_critical c + n_high c + n_medium c + n_low c + n_info c
  = Z.of_nat (length fs).
Proof.
  unfold countSeverities.
  destruct (countSeverities_fold fs
              {| n_critical := 0; n_high := 0; n_medium := 0; n_low := 0;
                 n_info := 0 |}) as (H1 & H2 & H3 & H4 & H5).
  simpl in *. rewrite H1, H2, H3, H4, H5.
  repeat split; try lia.
  unfold countOf, hasSeverity. clear.
  induction fs as [|f fs IH]; simpl; [reflexivity|].
  destruct (severity f); simpl; lia.
Qed.

Lemma countOf_zero (s : severity_level) (fs : list finding) :
  countOf s fs = 0 <-> Forall (fun f => severity f <> s) fs.
Proof.
  unfold countOf. induction fs as [|f fs IH]; simpl.
  - split; [constructor|reflexivity].
  - split.
    + intros H. destruct (hasSeverity s f) eqn:E; simpl in H; [lia|].
      constructor; [|apply IH; assumption].
      intros Hs. unfold hasSeverity in E. rewrite Hs in E. destruct s; discriminate.
    + intros H. inversion H as [|? ? Hf Hfs]; subst.
      assert (E : hasSeverity s f = false)
        by (unfold hasSeverity; destruct s, (severity f); try reflexivity; congruence).
      rewrite E. apply IH. assumption.
Qed.

Lemma summary_fallback_iff (fs : list finding) :
  generateSummary fs = fallbackSummary <->
  Forall (fun f => severity f = low \/ severity f = info) fs.
Proof.
  assert (Hz : forall s, s = critical \/ s = high \/ s = medium ->
               Forall (fun f => severity f = low \/ severity f = info) fs ->
               countOf s fs = 0).
  { intros s Hs Hall. apply countOf_zero. eapply Forall_impl; [exact Hall|].
    simpl. intros f Hf. destruct Hs as [-> | [-> | ->]]; destruct Hf; congruence. }
  assert (Hall : countOf critical fs = 0 -> countOf high fs = 0 ->
                 countOf medium fs = 0 ->
                 Forall (fun f => severity f = low \/ severity f = info) fs).
  { intros H1 H2 H3. apply countOf_zero in H1, H2, H3.
    rewrite Forall_forall in H1, H2, H3. apply Forall_forall. intros f Hf.
    specialize (H1 f Hf). specialize (H2 f Hf). specialize (H3 f Hf).
    destruct (severity f); auto; congruence. }
  assert (Hpos : forall s, 0 <= countOf s fs) by (intros s; unfold countOf; lia).
  unfold generateSummary.
  destruct (countSeverities_fold fs
              {| n_critical := 0; n_high := 0; n_medium := 0; n_low := 0;
                 n_info := 0 |}) as (H1 & H2 & H3 & _).
  fold (countSeverities fs) in H1, H2, H3. simpl in H1, H2, H3.
  rewrite Z.add_0_l in H1, H2, H3. rewrite H1, H2, H3.
  pose proof (Hpos critical) as P1. pose proof (Hpos high) as P2.
  pose proof (Hpos medium) as P3.
  destruct (countOf critical fs >? 0) eqn:E1;
    destruct (countOf high fs >? 0) eqn:E2;
    destruct (countOf medium fs >? 0) eqn:E3;
    rewrite ?Z.gtb_ltb in E1, E2, E3;
    rewrite ?Z.ltb_lt, ?Z.ltb_ge in E1, E2, E3;
    cbn [app length Nat.ltb Nat.leb];
    (split;
     [ intros Heq;
       first [ apply Hall; lia
             | exfalso; unfold fallbackSummary in Heq; simpl in Heq;
               discriminate Heq ]
     | intros Hf;
       first [ reflexivity
             | pose proof (Hz critical ltac:(auto) Hf);
               pose proof (Hz high ltac:(auto) Hf);
               pose proof (Hz medium ltac:(auto) Hf); lia ] ]).
Qed.

Lemma countOf_without (s : severity_level) (keep : finding -> bool)
      (fs : list finding) :
  (forall f, hasSeverity s f = true -> keep f = true) ->
  countOf s (List.filter keep fs) = countOf s fs.
Proof.
  intros Hk. unfold countOf. f_equal. f_equal.
  induction fs as [|f fs IH]; simpl; [reflexivity|].
  destruct (keep f) eqn:Ek; simpl.
  - rewrite IH. reflexivity.
  - destruct (hasSeverity s f) eqn:Es; [|exact IH].
    rewrite (Hk f Es) in Ek. discriminate.
Qed.

Lemma summary_from_counts (fs fs' : list finding) :
  countOf critical fs = countOf critical fs' ->
  countOf high fs = countOf high fs' ->
  countOf medium fs = countOf medium fs' ->
  generateSummary fs = generateSummary fs'.
Proof.
  intros H1 H2 H3. unfold generateSummary.
  destruct (countSeverities_fold fs
              {| n_critical := 0; n_high := 0; n_medium := 0; n_low := 0;
                 n_info := 0 |}) as (A1 & A2 & A3 & _).
  destruct (countSeverities_fold fs'
              {| n_critical := 0; n_high := 0; n_medium := 0; n_low := 0;
                 n_info := 0 |}) as (B1 & B2 & B3 & _).
  fold (countSeverities fs) in A1, A2, A3.
  fold (countSeverities fs') in B1, B2, B3.
  simpl in A1, A2, A3, B1, B2, B3.
  rewrite A1, A2, A3, B1, B2, B3, H1, H2, H3. reflexivity.
Qed.

(** X16 — The summary is the fixed "no significant issues" sentence exactly
    when every finding is of severity [low] or [info]; findings of those
    two severities never show in the summary: the summary is a function
    of the numbers of critical, high and medium findings alone, so it is
    the summary of the list with the low and info findings taken out. *)
Theorem summary_silent_on_low_and_info (fs : list finding) :
  (generateSummary fs = fallbackSummary <->
   Forall (fun f => severity f = low \/ severity f = info) fs) /\
  (forall fs' : list finding,
     countOf critical fs' = countOf critical fs ->
     countOf high fs' = countOf high fs ->
     countOf medium fs' = countOf medium fs ->
     generateSummary fs' = generateSummary fs) /\
  generateSummary
    (List.filter (fun f => negb (hasSeverity low f || hasSeverity info f)) fs)
  = generateSummary fs.
Proof.
  split; [apply summary_fallback_iff|].
  split; [intros fs'; apply summary_from_counts|].
  apply summary_from_counts; apply countOf_without;
    intros f Hf; unfold hasSeverity in *; destruct (severity f);
    try reflexivity; discriminate.
Qed.

End MetricsAndSummary.

Section ReviewFile.

Import CodeReviewer Report View Flow.



(** X18 — When the per-line estimates of the text sum to at most the
    chunker's [maxTokens], the chunked review is the whole-file review
    under another shape: one chunk, the same findings in the same order
    each tagged with chunk 1, and the same metrics. *)
Theorem fitting_text_reviewed_in_one_chunk
        (memory : FileChunker.options) (template content : string)
        (pats : list pattern) :
  activePatterns template = Some pats ->
  sumTokens (JS.split content)
  <= FileChunker.this_maxTokens (FileChunker.new memory) ->
  exists (c : combinedReview) (r : review),
    reviewChunkedFile memory template content = Some c /\
    performReview content template None = Some r /\
    totalChunks c = 1 /\
    allFindings c = map (fun f => {| base := f; chunk := 1 |}) (findings r) /\
    allMetrics c = metrics r.
Proof.
  intros Hp Hfit. do 2 eexists.
  split; [apply (reviewChunkedFile_some _ _ _ _ Hp)|].
  split; [unfold performReview, analyzeCode; rewrite Hp; reflexivity|].
  rewrite (createChunks_whole _ _ (or_introl Hfit)). simpl.
  repeat split.
Qed.

Lemma fitting_text_reviewed_in_one_chunk_witness :
  exists (c : combinedReview) (r : review),
    reviewChunkedFile Sample.smallOptions "best-practices" "var a = 1;"
    = Some c /\
    performReview "var a = 1;" "best-practices" None = Some r /\
    totalChunks c = 1 /\
    allFindings c = map (fun f => {| base := f; chunk := 1 |}) (findings r) /\
    allMetrics c = metrics r.
Proof.
  apply (fitting_text_reviewed_in_one_chunk Sample.smallOptions "best-practices"
           "var a = 1;" bestPractices).
  - reflexivity.
  - vm_compute. discriminate.
Defined.

End ReviewFile.

Section SavedChunks.

Import FileChunker View.

Lemma string_app_assoc (a b c : string) :
  ((a ++ b) ++ c = a ++ (b ++ c))%string.
Proof. induction a as [|x a IH]; simpl; [reflexivity|]. rewrite IH. reflexivity. Qed.

Lemma string_app_inv_tail (a b e : string) :
  (a ++ e = b ++ e)%string -> a = b.
Proof.
  revert b. induction a as [|x a IH]; intros b H; destruct b as [|y b]; simpl in H.
  - reflexivity.
  - apply (f_equal String.length) in H. simpl in H. rewrite length_append in H. lia.
  - apply (f_equal String.length) in H. simpl in H. rewrite length_append in H. lia.
  - inversion H; subst. f_equal. apply IH. assumption.
Qed.

Lemma uint_of_zeros (k : nat) (s : string) :
  NilEmpty.uint_of_string (Text.repeatChar k "0" ++ s)
  = option_map (Nat.iter k Decimal.D0) (NilEmpty.uint_of_string s).
Proof.
  induction k as [|k IH]; simpl.
  - destruct (NilEmpty.uint_of_string s); reflexivity.
  - rewrite IH. destruct (NilEmpty.uint_of_string s); reflexivity.
Qed.

Lemma of_uint_zeros (k : nat) (d : Decimal.uint) :
  Pos.of_uint (Nat.iter k Decimal.D0 d) = Pos.of_uint d.
Proof. induction k as [|k IH]; simpl; [reflexivity|]. exact IH. Qed.

Lemma padded_number_value (p : positive) :
  option_map Pos.of_uint
    (NilEmpty.uint_of_string (Text.padStart 3 "0" (Text.numberToString (Z.pos p))))
  = Some (Npos p).
Proof.
  unfold Text.padStart, Text.numberToString. simpl Z.to_int.
  unfold NilZero.string_of_int, NilZero.string_of_uint.
  pose proof (DecimalPos.Unsigned.to_uint_nonnil p) as Hn.
  destruct (Pos.to_uint p) eqn:E; try congruence;
    rewrite uint_of_zeros, NilEmpty.usu; simpl;
    rewrite of_uint_zeros, <- E, DecimalPos.Unsigned.of_to; reflexivity.
Qed.

Lemma chunkFileName_inj (a b : positive) (extension : string) :
  Saved.chunkFileName (Z.pos a) extension = Saved.chunkFileName (Z.pos b) extension ->
  a = b.
Proof.
  unfold Saved.chunkFileName. intros H. simpl in H.
  inversion H as [H']. apply string_app_inv_tail in H'.
  pose proof (padded_number_value a) as Ha.
  rewrite H', padded_number_value in Ha. congruence.
Qed.

(** X8 — No chunk file overwrites another: the files [saveChunks] writes for
    the chunks of [createChunks] have pairwise distinct names. *)
Theorem chunk_files_have_distinct_names
        (this : chunker) (content originalFilePath baseName extension : string) :
  NoDup (map fst (snd (Saved.saveChunks this (snd (createChunks this content))
                         originalFilePath baseName extension))).
Proof.
  unfold Saved.saveChunks. simpl. rewrite map_map. simpl.
  destruct (coverage this content) as (_ & _ & _ & Hnum).
  assert (Hcs : map number (snd (createChunks this content))
                = seqZ 1 (Z.of_nat (length (snd (createChunks this content))))).
  { rewrite <- (annotate_chunks this None (snd (createChunks this content))) at 1.
    rewrite map_map. fold (parts this content). rewrite Hnum.
    unfold parts. rewrite length_annotate. reflexivity. }
  rewrite <- (map_map number (fun n => Saved.chunkFileName n extension)), Hcs.
  apply NoDup_fmap_2_strong; [|apply NoDup_seqZ].
  intros x y Hx Hy Heq. apply elem_of_seqZ in Hx, Hy.
  destruct x as [|a|a]; try lia. destruct y as [|b|b]; try lia.
  f_equal. apply (chunkFileName_inj a b extension Heq).
Qed.

End SavedChunks.

Section SavedChunkReview.

Import CodeReviewer View Flow.

Lemma noNewline_app (a b : string) :
  noNewline (a ++ b) = noNewline a && noNewline b.
Proof.
  induction a as [|x a IH]; simpl; [reflexivity|].
  rewrite IH, andb_assoc. reflexivity.
Qed.

Lemma noNewline_digits (d : Decimal.uint) :
  noNewline (NilEmpty.string_of_uint d) = true.
Proof. induction d; simpl; try assumption; reflexivity. Qed.

Lemma noNewline_number (z : Z) : noNewline (Text.numberToString z) = true.
Proof.
  unfold Text.numberToString, NilZero.string_of_int, NilZero.string_of_uint.
  destruct (Z.to_int z) as [d|d]; destruct d; simpl;
    try reflexivity; apply noNewline_digits.
Qed.

Lemma header_split (c : FileChunker.chunk) (total : nat) (baseName text : string) :
  noNewline baseName = true ->
  exists hs : list string,
    length hs = 6%nat /\
    JS.split (Saved.chunkHeader c total baseName ++ text) = hs ++ JS.split text.
Proof.
  intros Hb.
  exists [ ("// Chunk " ++ Text.numberToString (FileChunker.number c) ++ "/"
             ++ Text.numberToString (Z.of_nat total))%string;
           ("// Lines: " ++ Text.numberToString (FileChunker.startLine c) ++ "-"
             ++ Text.numberToString (FileChunker.endLine c))%string;
           ("// Tokens: ~" ++ Text.numberToString (FileChunker.tokens c))%string;
           ("// Original: " ++ baseName)%string;
           "// -----------------------------------"%string;
           EmptyString ].
  split; [reflexivity|].
  unfold Saved.chunkHeader, Sample.nl.
  repeat rewrite string_app_assoc.
  set (n1 := Text.numberToString (FileChunker.number c)).
  set (n2 := Text.numberToString (Z.of_nat total)).
  set (n3 := Text.numberToString (FileChunker.startLine c)).
  set (n4 := Text.numberToString (FileChunker.endLine c)).
  set (n5 := Text.numberToString (FileChunker.tokens c)).
  assert (H1 : noNewline n1 = true) by apply noNewline_number.
  assert (H2 : noNewline n2 = true) by apply noNewline_number.
  assert (H3 : noNewline n3 = true) by apply noNewline_number.
  assert (H4 : noNewline n4 = true) by apply noNewline_number.
  assert (H5 : noNewline n5 = true) by apply noNewline_number.
  clearbody n1 n2 n3 n4 n5.
  assert (Hline : forall (l rest : string) (ls : list string),
             noNewline l = true -> JS.split rest = ls ->
             JS.split (l ++ String JS.newline rest) = l :: ls)
    by (intros l rest ls Hl <-; apply split_line_then; assumption).
  replace ("// Chunk " ++ n1 ++ "/" ++ n2 ++ String JS.newline "" ++ "// Lines: "
             ++ n3 ++ "-" ++ n4 ++ String JS.newline "" ++ "// Tokens: ~" ++ n5
             ++ String JS.newline "" ++ "// Original: " ++ baseName
             ++ String JS.newline "" ++ "// -----------------------------------"
             ++ String JS.newline "" ++ String JS.newline "" ++ text)%string
    with (("// Chunk " ++ n1 ++ "/" ++ n2) ++ String JS.newline
            (("// Lines: " ++ n3 ++ "-" ++ n4) ++ String JS.newline
               (("// Tokens: ~" ++ n5) ++ String JS.newline
                  (("// Original: " ++ baseName) ++ String JS.newline
                     ("// -----------------------------------" ++ String JS.newline
                        ("" ++ String JS.newline text))))))%string
    by (repeat rewrite string_app_assoc; reflexivity).
  cbn [app].
  repeat (apply Hline;
          [repeat first [ rewrite noNewline_app | rewrite H1 | rewrite H2
                        | rewrite H3 | rewrite H4 | rewrite H5 | rewrite Hb
                        | progress simpl ];
           reflexivity|]).
  reflexivity.
Qed.

Lemma matchLine_shift (pats : list pattern) (k i : nat) (l : string) :
  matchLine pats (k + i) l = map (moveDown (Z.of_nat k)) (matchLine pats i l).
Proof.
  unfold matchLine. induction pats as [|p pats IH]; simpl; [reflexivity|].
  rewrite map_app, IH. f_equal.
  destruct (Regex.test (regex p) l); simpl; [|reflexivity].
  unfold moveDown. simpl. do 2 f_equal. lia.
Qed.

Lemma scanLines_acc (pats : list pattern) (lines : list string) :
  forall (i : nat) (acc : list finding),
  scanLines pats i lines acc = acc ++ scanLines pats i lines [].
Proof.
  induction lines as [|l lines IH]; intros i acc; simpl.
  - rewrite app_nil_r. reflexivity.
  - rewrite (IH (S i) (acc ++ _)), (IH (S i) (matchLine pats i l)).
    rewrite app_assoc. reflexivity.
Qed.

Lemma scanLines_shift (pats : list pattern) (k : nat) (lines : list string) :
  forall i : nat,
  scanLines pats (k + i) lines []
  = map (moveDown (Z.of_nat k)) (scanLines pats i lines []).
Proof.
  induction lines as [|l lines IH]; intros i; simpl; [reflexivity|].
  rewrite scanLines_acc, (scanLines_acc pats lines (S i)).
  rewrite map_app, matchLine_shift. f_equal.
  rewrite <- IH. f_equal. lia.
Qed.

Lemma scanLines_app (pats : list pattern) (a b : list string) :
  forall (i : nat) (acc : list finding),
  scanLines pats i (a ++ b) acc
  = scanLines pats (length a + i) b (scanLines pats i a acc).
Proof.
  induction a as [|l a IH]; intros i acc; simpl; [reflexivity|].
  rewrite IH. f_equal. lia.
Qed.

(** X9 — Reviewing a chunk file as [saveChunks] wrote it, six header lines
    before the chunk's content, reports the findings of the header
    lines and then exactly the findings of the chunk's content, each
    six lines further down. *)
Theorem saved_chunk_file_shifts_findings
        (this : FileChunker.chunker) (chunks : list FileChunker.chunk)
        (originalFilePath baseName extension template name text : string)
        (pats : list pattern) :
  activePatterns template = Some pats ->
  noNewline baseName = true ->
  (name, text) ∈ snd (Saved.saveChunks this chunks originalFilePath baseName
                        extension) ->
  exists (c : FileChunker.chunk) (hdr fs : list finding),
    c ∈ chunks /\
    name = Saved.chunkFileName (FileChunker.number c) extension /\
    analyzeCode (FileChunker.content c) template = Some fs /\
    analyzeCode text template = Some (hdr ++ map (moveDown 6) fs) /\
    Forall (fun f => line f <= 6) hdr.
Proof.
  intros Hp Hb Hin. unfold Saved.saveChunks in Hin. cbn [snd] in Hin.
  apply list_elem_of_fmap in Hin as (c & Heq & Hc).
  apply pair_equal_spec in Heq as [-> ->].
  destruct (header_split c (length chunks) baseName (FileChunker.content c) Hb)
    as (hs & Hlen & Hsplit).
  exists c, (scanLines pats 0 hs []),
         (scanLines pats 0 (JS.split (FileChunker.content c)) []).
  unfold analyzeCode. rewrite Hp, Hsplit.
  repeat split; try assumption.
  - rewrite scanLines_app, scanLines_acc, Hlen.
    change 6 with (Z.of_nat 6). rewrite <- scanLines_shift. reflexivity.
  - apply Forall_forall. intros f Hf.
    apply scanLines_elem in Hf as [Hf|(i & l & Hi & Hf)]; [inversion Hf|].
    apply matchLine_elem in Hf as (p & _ & _ & ->). simpl.
    apply lookup_lt_Some in Hi. lia.
Qed.

Lemma saved_chunk_file_shifts_findings_witness :
  exists (c : FileChunker.chunk) (hdr fs : list finding),
    c ∈ snd (FileChunker.createChunks Sample.small Sample.threeLines) /\
    Saved.chunkFileName 2 ".js"
    = Saved.chunkFileName (FileChunker.number c) ".js" /\
    analyzeCode (FileChunker.content c) "best-practices" = Some fs /\
    analyzeCode
      (Saved.chunkHeader
         {| FileChunker.number := 2;
            FileChunker.content := "console.log(a);" ++ Sample.nl ++ "let b = 2;";
            FileChunker.startLine := 2; FileChunker.endLine := 3;
            FileChunker.tokens := 7; FileChunker.overlap := 2 |}
         2 "app.js"
       ++ "console.log(a);" ++ Sample.nl ++ "let b = 2;")
      "best-practices"
    = Some (hdr ++ map (moveDown 6) fs) /\
    Forall (fun f => line f <= 6) hdr.
Proof.
  apply (saved_chunk_file_shifts_findings Sample.small
           (snd (FileChunker.createChunks Sample.small Sample.threeLines))
           "src/app.js" "app.js" ".js" "best-practices" _ _ bestPractices).
  - reflexivity.
  - reflexivity.
  - vm_compute. apply list_elem_of_In. right. left. reflexivity.
Defined.

End SavedChunkReview.

Section MarkdownReport.

Import CodeReviewer Flow Markdown.

Lemma hasSeverity_iff (s : severity_level) (f : finding) :
  hasSeverity s f = true <-> severity f = s.
Proof.
  unfold hasSeverity. destruct s, (severity f); split; congruence.
Qed.

Lemma filter_severity_same (s : severity_level) (fs : list finding) :
  List.filter (hasSeverity s) (List.filter (hasSeverity s) fs)
  = List.filter (hasSeverity s) fs.
Proof.
  induction fs as [|f fs IH]; simpl; [reflexivity|].
  destruct (hasSeverity s f) eqn:E; simpl; rewrite ?E, IH; reflexivity.
Qed.

Lemma filter_severity_other (s s' : severity_level) (fs : list finding) :
  s <> s' ->
  List.filter (hasSeverity s) (List.filter (hasSeverity s') fs) = [].
Proof.
  intros Hne. induction fs as [|f fs IH]; simpl; [reflexivity|].
  destruct (hasSeverity s' f) eqn:E'; simpl; [|exact IH].
  destruct (hasSeverity s f) eqn:E; [|exact IH].
  apply hasSeverity_iff in E, E'. congruence.
Qed.

Lemma filter_listed (s : severity_level) (fs : list finding) :
  List.filter (hasSeverity s) (listed fs) = List.filter (hasSeverity s) fs.
Proof.
  unfold listed, severities. simpl. rewrite !List.filter_app. simpl.
  destruct s;
    rewrite filter_severity_same, !filter_severity_other by discriminate;
    simpl; rewrite ?app_nil_r; reflexivity.
Qed.

Lemma fold_pushGroup (fs : list finding) :
  forall (g : severity_level -> option (list finding)) (s : severity_level),
  fold_left pushGroup fs g s
  = match List.filter (hasSeverity s) fs with
    | [] => g s
    | l => Some (default [] (g s) ++ l)
    end.
Proof.
  induction fs as [|f fs IH]; intros g s; simpl; [reflexivity|].
  rewrite IH. unfold pushGroup.
  destruct (hasSeverity s f) eqn:E.
  - destruct (List.filter (hasSeverity s) fs) as [|x l];
      destruct (g s); simpl; try reflexivity; rewrite <- app_assoc; reflexivity.
  - reflexivity.
Qed.

Lemma findingsBySeverity_filter (fs : list finding) (s : severity_level) :
  findingsBySeverity fs s
  = match List.filter (hasSeverity s) fs with [] => None | l => Some l end.
Proof.
  unfold findingsBySeverity. rewrite fold_pushGroup.
  destruct (List.filter (hasSeverity s) fs); reflexivity.
Qed.

Lemma listed_permutation (fs : list finding) : Permutation (listed fs) fs.
Proof.
  unfold listed, severities.
  induction fs as [|f fs IH]; simpl in *; [constructor|].
  rewrite app_nil_r in *.
  destruct f as [ln sv msg cd]. destruct sv; simpl.
  - constructor. exact IH.
  - etransitivity; [|constructor; exact IH].
    symmetry. apply Permutation_middle.
  - etransitivity; [|constructor; exact IH].
    rewrite !(app_assoc (List.filter (hasSeverity critical) fs)).
    symmetry. apply Permutation_middle.
  - etransitivity; [|constructor; exact IH].
    rewrite !(app_assoc (List.filter (hasSeverity critical) fs)).
    rewrite !(app_assoc (_ ++ List.filter (hasSeverity high) fs)).
    symmetry. apply Permutation_middle.
  - etransitivity; [|constructor; exact IH].
    rewrite !app_assoc. symmetry.
    rewrite <- (app_nil_r (List.filter (hasSeverity info) fs)) at 2.
    etransitivity; [apply Permutation_middle|].
    rewrite app_nil_r. reflexivity.
Qed.

Lemma listed_sorted (fs : list finding) : StronglySorted rankOrder (listed fs).
Proof.
  assert (Hsev : forall s, Forall (fun f => severity f = s)
                                  (List.filter (hasSeverity s) fs)).
  { intros s. apply Forall_forall. intros f Hf.
    apply list_elem_of_In, filter_In in Hf as [_ Hf].
    apply hasSeverity_iff. assumption. }
  assert (Hgroup : forall s, StronglySorted rankOrder (List.filter (hasSeverity s) fs)).
  { intros s. specialize (Hsev s).
    induction Hsev as [|f l Hf Hl IH]; constructor; [assumption|].
    eapply Forall_impl; [exact Hl|]. simpl. intros g Hg.
    unfold rankOrder. rewrite Hf, Hg. lia. }
  unfold listed, severities. simpl. rewrite app_nil_r.
  repeat (apply StronglySorted_app_2; [|apply Hgroup|]); try apply Hgroup.
  all: intros a b Ha Hb; unfold rankOrder;
    repeat (apply elem_of_app in Hb as [Hb|Hb]);
    pose proof (Hsev critical) as H1; pose proof (Hsev high) as H2;
    pose proof (Hsev medium) as H3; pose proof (Hsev low) as H4;
    pose proof (Hsev info) as H5;
    rewrite Forall_forall in H1, H2, H3, H4, H5;
    first [ rewrite (H1 a Ha) | rewrite (H2 a Ha) | rewrite (H3 a Ha)
          | rewrite (H4 a Ha) ];
    first [ rewrite (H2 b Hb) | rewrite (H3 b Hb) | rewrite (H4 b Hb)
          | rewrite (H5 b Hb) ];
    simpl; lia.
Qed.

Lemma string_app_empty_r (a : string) : (a ++ "")%string = a.
Proof. induction a as [|x a IH]; simpl; [reflexivity|]. rewrite IH. reflexivity. Qed.

Lemma concat_entries_cons (x : string) (l : list string) :
  String.concat "" (x :: l) = (x ++ String.concat "" l)%string.
Proof. destruct l; simpl; [rewrite string_app_empty_r|]; reflexivity. Qed.

Lemma renderInOrder_run (s : severity_level) (g rest : list finding) :
  Forall (fun f => severity f = s) g ->
  renderInOrder (Some s) (g ++ rest)
  = (String.concat "" (map entry g) ++ renderInOrder (Some s) rest)%string.
Proof.
  induction 1 as [|f g Hf Hg IH]; [reflexivity|].
  cbn [app map renderInOrder]. rewrite concat_entries_cons.
  apply hasSeverity_iff in Hf as Hs. rewrite Hs, Hf, IH.
  cbn [append]. rewrite string_app_assoc. reflexivity.
Qed.

Lemma renderInOrder_group (prev : option severity_level) (s : severity_level)
      (g rest : list finding) :
  g <> [] -> Forall (fun f => severity f = s) g -> prev <> Some s ->
  renderInOrder prev (g ++ rest)
  = (closer prev ++ "### " ++ heading s ++ Sample.nl ++ Sample.nl
     ++ String.concat "" (map entry g) ++ renderInOrder (Some s) rest)%string.
Proof.
  intros Hne Hall Hprev. destruct g as [|f g]; [congruence|].
  inversion Hall as [|? ? Hf Hg]; subst.
  cbn [app map renderInOrder]. rewrite concat_entries_cons.
  rewrite (renderInOrder_run _ _ _ Hg).
  destruct prev as [p|]; cbn [closer].
  - destruct (hasSeverity p f) eqn:E.
    + apply hasSeverity_iff in E. congruence.
    + rewrite !string_app_assoc. reflexivity.
  - rewrite !string_app_assoc. reflexivity.
Qed.

Lemma renderInOrder_groups (fs : list finding) (ss : list severity_level) :
  forall prev : option severity_level,
  NoDup ss -> (forall p, prev = Some p -> p ∉ ss) ->
  renderInOrder prev (concat (map (fun s => List.filter (hasSeverity s) fs) ss))
  = (closer prev
     ++ String.concat ""
          (map (fun s => renderGroup s (List.filter (hasSeverity s) fs)) ss))%string.
Proof.
  induction ss as [|s ss IH]; intros prev Hnd Hprev.
  - destruct prev; reflexivity.
  - inversion Hnd as [|? ? Hs Hnd']; subst.
    cbn [map concat]. rewrite concat_entries_cons.
    assert (Hall : Forall (fun f => severity f = s) (List.filter (hasSeverity s) fs)).
    { apply Forall_forall. intros f Hf.
      apply list_elem_of_In, filter_In in Hf as [_ Hf].
      apply hasSeverity_iff. assumption. }
    destruct (List.filter (hasSeverity s) fs) as [|f g] eqn:Eg.
    + cbn [app renderGroup append]. apply IH; [assumption|].
      intros p Hp Hin. apply (Hprev p Hp). right. assumption.
    + rewrite (renderInOrder_group prev s);
        [|discriminate|assumption|intros Hp; apply (Hprev s Hp); left].
      rewrite (IH (Some s));
        [|assumption|intros p Hp; inversion Hp; subst p; assumption].
      unfold renderGroup. cbn [closer]. rewrite !string_app_assoc.
      reflexivity.
Qed.

Lemma listed_rendered (fs : list finding) :
  renderInOrder None (listed fs)
  = String.concat ""
      (map (fun s => renderGroup s (List.filter (hasSeverity s) fs)) severities).
Proof.
  unfold listed. rewrite renderInOrder_groups; [reflexivity| |discriminate].
  unfold severities.
  repeat (constructor;
          [intros H;
           repeat (apply elem_of_cons in H as [H|H]; [discriminate|]);
           inversion H|]).
  constructor.
Qed.

Lemma section_renderGroup (fs : list finding) (s : severity_level) :
  section (findingsBySeverity fs) s
  = renderGroup s (List.filter (hasSeverity s) fs).
Proof.
  unfold section, renderGroup. rewrite findingsBySeverity_filter.
  destruct (List.filter (hasSeverity s) fs); reflexivity.
Qed.

(** X19 — The Markdown report lists the findings grouped by severity,
    critical first, in list order inside each severity.  The findings in
    that order, [listed fs], are a rearrangement of the review's findings
    sorted by severity rank; the report of a non-empty list is a head
    that does not depend on the findings, the line [## Findings], and
    the findings of [listed fs] written out from first to last, each
    run of one severity under its heading; that text is the groups of
    critical, high, medium, low and info findings, in this order, every
    non-empty group with its entries in the order of the review's
    list. *)
Theorem markdown_report_lists_by_severity
        (file dateText : string) (template : option string) (summary : string)
        (m : metrics_t) (fs : list finding) :
  Permutation (listed fs) fs /\
  StronglySorted rankOrder (listed fs) /\
  generateMarkdownReport file dateText template summary m (listed fs)
  = generateMarkdownReport file dateText template summary m fs /\
  exists head : string,
    generateMarkdownReport file dateText template summary m []
    = (head ++ noFindingsPart)%string /\
    (fs <> [] ->
     generateMarkdownReport file dateText template summary m fs
     = (head ++ "## Findings" ++ Sample.nl ++ Sample.nl
        ++ renderInOrder None (listed fs))%string /\
     renderInOrder None (listed fs)
     = String.concat ""
         (map (fun s => renderGroup s (List.filter (hasSeverity s) fs))
              [critical; high; medium; low; info])).
Proof.
  assert (Hsec : forall l : list finding,
            map (section (findingsBySeverity l)) severities
            = map (fun s => renderGroup s (List.filter (hasSeverity s) l))
                  severities).
  { intros l. apply map_ext. intros s. apply section_renderGroup. }
  split; [apply listed_permutation|]. split; [apply listed_sorted|].
  split.
  { unfold generateMarkdownReport.
    rewrite (Permutation_length (listed_permutation fs)).
    rewrite !Hsec.
    rewrite (map_ext _ _ (fun s => f_equal (renderGroup s) (filter_listed s fs))).
    reflexivity. }
  eexists. split.
  { unfold generateMarkdownReport, noFindingsPart. cbn [length Nat.ltb Nat.leb].
    rewrite <- !string_app_assoc. reflexivity. }
  intros Hne. split; [|apply listed_rendered].
  unfold generateMarkdownReport.
  destruct fs as [|f fs']; [congruence|].
  cbn [length Nat.ltb Nat.leb]. rewrite Hsec, listed_rendered.
  rewrite <- !string_app_assoc. reflexivity.
Qed.

End MarkdownReport.

Section SummaryUnderChunking.

Import CodeReviewer Report View Flow.

(** X20 — Chunking does not change whether the summary raises an alarm: the
    summary of the chunked review is the fixed "no significant issues"
    sentence exactly when the summary of the whole-file review is. *)
Theorem chunking_keeps_summary_alarm
        (memory : FileChunker.options) (template content : string)
        (pats : list pattern) :
  activePatterns template = Some pats ->
  exists (combined : combinedReview) (r : review),
    reviewChunkedFile memory template content = Some combined /\
    performReview content template None = Some r /\
    (combinedSummary combined = fallbackSummary <->
     reviewSummary r = fallbackSummary).
Proof.
  intros Hp.
  destruct (chunked_and_whole_findings memory template content pats Hp)
    as (combined & whole & Hc & Hw & Hsound & Hcomplete).
  exists combined. eexists. split; [assumption|].
  split; [unfold performReview; rewrite Hw; reflexivity|].
  unfold combinedSummary, reviewSummary. simpl.
  rewrite !summary_fallback_iff, !Forall_forall. split.
  - intros H f Hf. destruct (Hcomplete f Hf) as (tf & Htf & Htr).
    specialize (H (base tf) ltac:(apply list_elem_of_fmap; eauto)).
    unfold translate in Htr. destruct (originalLine _ tf); [|discriminate].
    inversion Htr; subst f. simpl. assumption.
  - intros H b Hb. apply list_elem_of_fmap in Hb as (tf & -> & Htf).
    destruct (Hsound tf Htf) as (f & Htr & Hf). specialize (H f Hf).
    unfold translate in Htr. destruct (originalLine _ tf); [|discriminate].
    inversion Htr; subst f. simpl in H. assumption.
Qed.

Lemma chunking_keeps_summary_alarm_witness :
  exists (combined : combinedReview) (r : review),
    reviewChunkedFile Sample.smallOptions "security" Sample.evalLines
    = Some combined /\
    performReview Sample.evalLines "security" None = Some r /\
    (combinedSummary combined = fallbackSummary <->
     reviewSummary r = fallbackSummary).
Proof.
  apply (chunking_keeps_summary_alarm Sample.smallOptions "security"
           Sample.evalLines security).
  reflexivity.
Defined.

(** On that sample the alarm is raised on both sides: the call of [eval]
    on line 2 lies in the overlap, so the whole-file summary counts one
    critical issue and the chunked one two. *)
Lemma eval_sample_raises_alarm :
  option_map combinedSummary
    (reviewChunkedFile Sample.smallOptions "security" Sample.evalLines)
  = Some "Found 2 critical issues. Immediate attention required."%string /\
  option_map reviewSummary (performReview Sample.evalLines "security" None)
  = Some "Found 1 critical issues. Immediate attention required."%string.
Proof. split; vm_compute; reflexivity. Qed.

End SummaryUnderChunking.

Section OverlapField.

Import FileChunker View.

Lemma overlap_field_is_next_chunk_witness :
  exists c : chunk,
    snd (createChunks Sample.small Sample.threeLines) !! 0%nat = Some c /\
    overlapOf (createChunks Sample.small Sample.threeLines) c =
    match snd (createChunks Sample.small Sample.threeLines) !! 1%nat with
    | Some d => chunkLines d
    | None => []
    end.
Proof.
  eexists. split; [vm_compute; reflexivity|].
  apply (overlap_field_is_next_chunk Sample.small Sample.threeLines 0).
  vm_compute. reflexivity.
Defined.

End OverlapField.
